(** * Simulador Inteligente de Renda Fixa: the projection and tax engine

    A shallow embedding of [src/simulador_inteligente.py]: the regressive
    income-tax table [obter_aliquota_ir], the monthly-rate resolver
    [calcular_rentabilidade_mensal], the month-by-month projection
    [simular_valor_futuro] and the ranking of the simulated products
    ([resultados], [melhor]).

    The source computes on Python numbers: [int] for the horizon in months
    and for day counts, [float] for money and rates.  Integers are [Z].  The
    float operations are kept behind the interface [Arith], so that what is
    proved from the control flow alone holds for every arithmetic, binary64
    included; the properties that rest on laws of arithmetic (order,
    [1 * x = x]) are proved for the exact reals, which is the number model of
    the specification's data model.  [binary64] is the arithmetic of the
    script itself, on primitive floats: it runs the script where rounding,
    overflow and NaN decide. *)

From Stdlib Require Import PrimFloat.
From Stdlib Require Floats.
From Stdlib Require Import String ZArith List Bool Lia QArith Reals Lra.
From Stdlib Require Import Permutation Sorted.
Import ListNotations.

Local Open Scope Z_scope.

(** ** The arithmetic the source uses *)

Declare Scope num_scope.
Delimit Scope num_scope with num.

(** [of_int] is the promotion of an [int] operand in a mixed expression such
    as [1 + taxa]; [lit] is the value of a decimal float literal such as
    [0.225]; [gt] is the comparison [>] that [max] applies to its keys. *)
Class Arith (num : Type) : Type := {
  of_int : Z -> num;
  lit : Q -> num;
  add : num -> num -> num;
  sub : num -> num -> num;
  mul : num -> num -> num;
  div : num -> num -> num;
  pow : num -> num -> num;
  gt : num -> num -> bool
}.

Infix "+" := add : num_scope.
Infix "-" := sub : num_scope.
Infix "*" := mul : num_scope.
Infix "/" := div : num_scope.
Notation "x ** y" := (pow x y) (at level 30, right associativity) : num_scope.

(** ** Python builtins *)

(** [range(lo, hi)]: the integers [lo], [lo + 1], ..., [hi - 1]; empty when
    [hi <= lo]. *)
Definition range (lo hi : Z) : list Z :=
  map (fun k => lo + Z.of_nat k) (seq 0 (Z.to_nat (hi - lo))).

Section Max.
Context {num : Type} `{Arith num} {A : Type}.
Variable key : A -> num.

(** The scan of [max(iterable, key=...)]: the running maximum is replaced
    only by an item whose key is strictly greater. *)
Fixpoint max_scan (best : A) (items : list A) : A :=
  match items with
  | [] => best
  | item :: rest =>
      if gt (key item) (key best) then max_scan item rest
      else max_scan best rest
  end.

(** [max(items, key=key)]; [None] stands for the [ValueError] that [max]
    raises on an empty sequence. *)
Definition py_max (items : list A) : option A :=
  match items with
  | [] => None
  | first :: rest => Some (max_scan first rest)
  end.
End Max.

(** [items[i]]: a negative index counts from the end; [None] stands for
    the [IndexError] of an index out of range. *)
Definition getitem {A : Type} (items : list A) (i : Z) : option A :=
  let n := Z.of_nat (length items) in
  if i <? 0 then
    if 0 <=? n + i then nth_error items (Z.to_nat (n + i)) else None
  else nth_error items (Z.to_nat i).

(** ** The engine *)

Section Engine.
Context {num : Type} `{Arith num}.
Local Open Scope num_scope.

(** Tabela de IR regressivo para CDB. *)
Definition obter_aliquota_ir (dias : Z) : num :=
  if (dias <=? 180)%Z then lit 0.225
  else if (dias <=? 360)%Z then lit 0.20
  else if (dias <=? 720)%Z then lit 0.175
  else lit 0.15.

Definition calcular_rentabilidade_mensal
    (tipo_rentabilidade : string) (taxa cdi_anual ipca_anual : num) : num :=
  if (tipo_rentabilidade =? "Prefixada")%string then
    (of_int 1 + taxa) ** (of_int 1 / of_int 12) - of_int 1
  else if (tipo_rentabilidade =? "CDI")%string then
    (of_int 1 + cdi_anual) ** (of_int 1 / of_int 12) - of_int 1 * taxa
  else if (tipo_rentabilidade =? "IPCA +")%string then
    ((of_int 1 + ipca_anual) * (of_int 1 + taxa)) ** (of_int 1 / of_int 12)
    - of_int 1
  else of_int 0.

(** One iteration of the loop of [simular_valor_futuro], on the pair of the
    loop's variables [(saldo, valores)]; the loop index is not used. *)
Definition passo_mes (rent_mensal aporte_mensal : num)
    (estado : num * list num) (i : Z) : num * list num :=
  let '(saldo, valores) := estado in
  let saldo := saldo * (of_int 1 + rent_mensal) in
  let saldo := saldo + aporte_mensal in
  (saldo, (valores ++ [saldo])%list).

(** Returns [(saldo, valores, rendimento_bruto, rent_mensal)]. *)
Definition simular_valor_futuro
    (tipo_rentabilidade : string) (taxa : num) (meses : Z)
    (aporte_inicial aporte_mensal cdi_anual ipca_anual : num)
    (isento_ir : bool) : num * list num * num * num :=
  let rent_mensal :=
    calcular_rentabilidade_mensal tipo_rentabilidade taxa cdi_anual ipca_anual in
  let saldo := aporte_inicial in
  let valores := [saldo] in
  let '(saldo, valores) :=
    fold_left (passo_mes rent_mensal aporte_mensal)
              (range 1 (meses + 1)) (saldo, valores) in
  let rendimento_bruto :=
    saldo - (aporte_inicial + aporte_mensal * of_int meses) in
  if negb isento_ir then
    let dias := (meses * 30)%Z in
    let aliquota := obter_aliquota_ir dias in
    let imposto := rendimento_bruto * aliquota in
    (saldo - imposto, valores, rendimento_bruto - imposto, rent_mensal)
  else (saldo, valores, rendimento_bruto, rent_mensal).

(** The components of the returned tuple. *)
Definition saldo_de (r : num * list num * num * num) : num :=
  let '(saldo, _, _, _) := r in saldo.
Definition valores_de (r : num * list num * num * num) : list num :=
  let '(_, valores, _, _) := r in valores.
Definition rendimento_de (r : num * list num * num * num) : num :=
  let '(_, _, rendimento_bruto, _) := r in rendimento_bruto.
Definition rentabilidade_de (r : num * list num * num * num) : num :=
  let '(_, _, _, rent_mensal) := r in rent_mensal.

(** An entry of the list [produtos]. *)
Record produto : Type := Produto {
  nome : string;
  tipo : string;
  taxa : num;
  isento_ir : bool
}.

(** The three products the script simulates. *)
Definition produtos : list produto :=
  [ Produto "CDB - Prefixada" "Prefixada" (lit 0.1175) false;
    Produto "LCI - Pós CDI" "CDI" (lit 0.94) true;
    Produto "LCA - IPCA +" "IPCA +" (lit 0.058) true ].

(** The tuple [(nome, saldo_final, rendimento_bruto)] the simulation loop
    appends for one product. *)
Definition resultado_de (meses : Z)
    (aporte_inicial aporte_mensal cdi_anual ipca_anual : num)
    (p : produto) : string * num * num :=
  let '(saldo_final, valores, rendimento_bruto, rentabilidade_mensal) :=
    simular_valor_futuro (tipo p) (taxa p) meses aporte_inicial
                         aporte_mensal cdi_anual ipca_anual (isento_ir p) in
  (nome p, saldo_final, rendimento_bruto).

(** The simulation loop over the products: [resultados] starts empty and
    gets one tuple per product, in order. *)
Definition resultados (ps : list produto) (meses : Z)
    (aporte_inicial aporte_mensal cdi_anual ipca_anual : num)
    : list (string * num * num) :=
  fold_left
    (fun acc p =>
       (acc ++ [resultado_de meses aporte_inicial aporte_mensal
                             cdi_anual ipca_anual p])%list)
    ps [].

(** The final balance of a product, the component [x[1]] of its tuple. *)
Definition saldo_final (meses : Z)
    (aporte_inicial aporte_mensal cdi_anual ipca_anual : num)
    (p : produto) : num :=
  saldo_de (simular_valor_futuro (tipo p) (taxa p) meses aporte_inicial
              aporte_mensal cdi_anual ipca_anual (isento_ir p)).

(** [melhor = max(resultados, key=lambda x: x[1])]. *)
Definition melhor (rs : list (string * num * num))
    : option (string * num * num) :=
  py_max (fun x => snd (fst x)) rs.
End Engine.

(** ** The exact reals as an arithmetic

    Money and rates as real numbers, the number model of the specification.
    [Rpower x y] is [x ** y] for a base [x > 0], which is where the source
    uses it on its stated domain ([1 + rate] with a non-negative rate); no
    theorem below depends on its value elsewhere. *)
#[export] Instance real_arith : Arith R := {|
  of_int := IZR;
  lit := Q2R;
  add := Rplus;
  sub := Rminus;
  mul := Rmult;
  div := Rdiv;
  pow := Rpower;
  gt := fun a b => if Rgt_dec a b then true else false
|}.


(** ** Binary64 as an arithmetic

    Python's [float], the arithmetic the script runs on: the operations
    round to nearest, overflow to an infinity, and [inf - inf] is NaN, of
    which every comparison is false. *)

(** The float of a positive integer; exact below [2^53]. *)
Fixpoint float_of_positive (p : positive) : float :=
  match p with
  | xH => 1%float
  | xO q => (2 * float_of_positive q)%float
  | xI q => (2 * float_of_positive q + 1)%float
  end.

(** [float(z)], as the promotion of an [int] operand does it; exact for
    [|z| < 2^53], which covers the constants of the source and any horizon
    a loop can run through. *)
Definition float_of_int (z : Z) : float :=
  match z with
  | Z0 => 0%float
  | Zpos p => float_of_positive p
  | Zneg p => (- float_of_positive p)%float
  end.

(** The float of a decimal literal: the quotient of two integers that are
    floats themselves, rounded once, which is the float nearest to the
    decimal. *)
Definition float_of_literal (q : Q) : float :=
  (float_of_int (Qnum q) / float_of_positive (Qden q))%float.

(** On two floats [**] is C's [pow], which is outside the source.  These are
    its values where the three products of the script reach it with the
    default rates of the form: base, exponent [1/12], result. *)
Definition libm_values : list (float * float * float) :=
  [ (0x1.1e147ae147ae1p+0, 0x1.5555555555555p-4, 0x1.026189ed44d61p+0);
    (0x1.2333333333333p+0, 0x1.5555555555555p-4, 0x1.02c363c717fc1p+0);
    (0x1.1b0941c8216c6p+0, 0x1.5555555555555p-4, 0x1.02269a4e4c687p+0)
  ]%float.

(** [x ** y] at the arguments of [libm_values]; NaN stands for the values
    that are not in the table, and none of them is used. *)
Definition libm_pow (x y : float) : float :=
  match
    find (fun entry =>
            (fst (fst entry) =? x)%float && (snd (fst entry) =? y)%float)
         libm_values
  with
  | Some entry => snd entry
  | None => nan
  end.

Definition binary64 : Arith float := {|
  of_int := float_of_int;
  lit := float_of_literal;
  add := PrimFloat.add;
  sub := PrimFloat.sub;
  mul := PrimFloat.mul;
  div := PrimFloat.div;
  pow := libm_pow;
  gt := fun a b => PrimFloat.ltb b a
|}.

(** The comparison [>] orders the balances [keys]: it is irreflexive and
    transitive on them, and what is greater than one of them is greater than
    whatever that one is not smaller than.  Floats that are not NaN are
    ordered so; a NaN among them breaks the last condition. *)
Definition ordered_by_gt {num : Type} `{Arith num} (keys : list num) : Prop :=
  (forall a, In a keys -> gt a a = false)
  /\ (forall a b c, In a keys -> In b keys -> In c keys ->
        gt a b = true -> gt b c = true -> gt a c = true)
  /\ (forall a b c, In a keys -> In b keys -> In c keys ->
        gt a b = true -> gt c b = false -> gt a c = true).

(** ** The balance sequence, for the proofs *)

Section Saldos.
Context {num : Type} `{Arith num}.
Local Open Scope num_scope.

(** What one month does to the balance. *)
Definition render (rent_mensal aporte_mensal saldo : num) : num :=
  saldo * (of_int 1 + rent_mensal) + aporte_mensal.

(** The balance [n] months after a balance [saldo]. *)
Fixpoint saldo_apos (rent_mensal aporte_mensal saldo : num) (n : nat) : num :=
  match n with
  | O => saldo
  | S k => saldo_apos rent_mensal aporte_mensal
                      (render rent_mensal aporte_mensal saldo) k
  end.

(** The balances of the [n] months that follow a balance [saldo]. *)
Fixpoint saldos (rent_mensal aporte_mensal saldo : num) (n : nat) : list num :=
  match n with
  | O => []
  | S k =>
      let proximo := render rent_mensal aporte_mensal saldo in
      proximo :: saldos rent_mensal aporte_mensal proximo k
  end.
End Saldos.

(** ** The rest of the script: the chart and the second best *)

(** [enumerate(items)]: each item paired with its index, counted from 0. *)
Definition enumerate {A : Type} (items : list A) : list (Z * A) :=
  combine (range 0 (Z.of_nat (length items))) items.

Section Sorted.
Context {num : Type} `{Arith num} {A : Type}.
Variable key : A -> num.

(** [a < b], the only comparison [sorted] applies to its keys; on floats it
    is the same test as [b > a]. *)
Definition less (a b : num) : bool := gt b a.

(** Insertion into a sorted run, after every item that is not greater: the
    place a stable sort gives the item. *)
Fixpoint insort (item : A) (run : list A) : list A :=
  match run with
  | [] => [item]
  | first :: rest =>
      if less (key item) (key first) then item :: run
      else first :: insort item rest
  end.

(** [sorted(items, key=key)], a stable sort in ascending order of key. *)
Definition py_sorted (items : list A) : list A :=
  fold_left (fun run item => insort item run) items [].
End Sorted.

Section Script.
Context {num : Type} `{Arith num}.

(** [segundo = sorted(resultados, key=lambda x: x[1])[-2]]; [None] stands
    for the [IndexError] of the index [-2]. *)
Definition segundo (rs : list (string * num * num))
    : option (string * num * num) :=
  getitem (py_sorted (fun x => snd (fst x)) rs) (-2).

(** Cores para o grafico. *)
Definition cores : list string := ["red"; "blue"; "green"]%string.

(** The arguments of one [go.Scatter] trace: [x], [y], [mode], [name] and
    the colour of [line]. *)
Record scatter : Type := Scatter {
  x : list Z;
  y : list num;
  mode : string;
  name : string;
  line : string
}.

(** One iteration of the simulation loop, on the pair [(resultados, fig)],
    the figure being the list of the traces added so far.  [None] stands for
    the [IndexError] of [cores[idx]], which ends the script. *)
Definition passo_produto (meses : Z)
    (aporte_inicial aporte_mensal cdi_anual ipca_anual : num)
    (estado : option (list (string * num * num) * list scatter))
    (item : Z * produto)
    : option (list (string * num * num) * list scatter) :=
  match estado with
  | None => None
  | Some (res, fig) =>
      let '(idx, produto) := item in
      let '(saldo_final, valores, rendimento_bruto, rentabilidade_mensal) :=
        simular_valor_futuro (tipo produto) (taxa produto) meses aporte_inicial
                             aporte_mensal cdi_anual ipca_anual
                             (isento_ir produto) in
      let res := (res ++ [(nome produto, saldo_final, rendimento_bruto)])%list in
      match getitem cores idx with
      | None => None
      | Some cor =>
          Some (res,
                (fig ++ [Scatter (range 0 (meses + 1)) valores "lines+markers"
                                 (nome produto) cor])%list)
      end
  end.

(** The simulation loop with its chart:
    [for idx, produto in enumerate(produtos): ...]. *)
Definition simulacao (ps : list produto) (meses : Z)
    (aporte_inicial aporte_mensal cdi_anual ipca_anual : num)
    : option (list (string * num * num) * list scatter) :=
  fold_left
    (passo_produto meses aporte_inicial aporte_mensal cdi_anual ipca_anual)
    (enumerate ps) (Some ([], [])).

(** The trace of a product whose index is [k], for the proofs. *)
Definition traco (meses : Z)
    (aporte_inicial aporte_mensal cdi_anual ipca_anual : num)
    (k : nat) (p : produto) : scatter :=
  Scatter (range 0 (meses + 1))
          (valores_de
             (simular_valor_futuro (tipo p) (taxa p) meses aporte_inicial
                aporte_mensal cdi_anual ipca_anual (isento_ir p)))
          "lines+markers" (nome p) (nth k cores ""%string).

(** The traces of the products [ps], the first of index [k]. *)
Fixpoint tracos (meses : Z)
    (aporte_inicial aporte_mensal cdi_anual ipca_anual : num)
    (k : nat) (ps : list produto) : list scatter :=
  match ps with
  | [] => []
  | p :: rest =>
      traco meses aporte_inicial aporte_mensal cdi_anual ipca_anual k p
      :: tracos meses aporte_inicial aporte_mensal cdi_anual ipca_anual
                (S k) rest
  end.

(** The exceptions the script can end in: [max] of an empty sequence, and
    an index out of range. *)
Inductive erro : Type := ValueError | IndexError.

(** The script from the simulation loop to [segundo]: it ends in the first
    exception raised, or reaches the chart with the figure, [melhor] and
    [segundo] computed. *)
Definition script (ps : list produto) (meses : Z)
    (aporte_inicial aporte_mensal cdi_anual ipca_anual : num)
    : erro + (list scatter * (string * num * num) * (string * num * num)) :=
  match simulacao ps meses aporte_inicial aporte_mensal cdi_anual ipca_anual
  with
  | None => inl IndexError
  | Some (resultados, fig) =>
      match melhor resultados with
      | None => inl ValueError
      | Some melhor =>
          match segundo resultados with
          | None => inl IndexError
          | Some segundo => inr (fig, melhor, segundo)
          end
      end
  end.
End Script.

(** ** Builtins *)

Example range_1_4 : range 1 (3 + 1) = [1; 2; 3].
Proof. reflexivity. Qed.

Example range_empty : range 1 (0 + 1) = [] /\ range 1 (-2 + 1) = [].
Proof. split; reflexivity. Qed.

Example getitem_ends :
  getitem [10; 20; 30] 0 = Some 10 /\ getitem [10; 20; 30] (-1) = Some 30
  /\ getitem [10; 20; 30] 3 = None /\ getitem [10; 20; 30] (-4) = None.
Proof. repeat split; reflexivity. Qed.

Lemma range_length (lo hi : Z) : length (range lo hi) = Z.to_nat (hi - lo).
Proof. unfold range. now rewrite length_map, length_seq. Qed.

Lemma getitem_nonneg {A : Type} (items : list A) (i : Z) :
  0 <= i -> getitem items i = nth_error items (Z.to_nat i).
Proof.
  intros Hi. unfold getitem.
  destruct (Z.ltb_spec i 0) as [Hneg | _]; [lia | reflexivity].
Qed.

(** ** The loop of [simular_valor_futuro] *)

Section Loop.
Context {num : Type} `{Arith num}.
Local Open Scope num_scope.
Variables rent_mensal aporte_mensal : num.

Lemma saldo_apos_succ (saldo : num) (n : nat) :
  saldo_apos rent_mensal aporte_mensal saldo (S n)
  = render rent_mensal aporte_mensal
           (saldo_apos rent_mensal aporte_mensal saldo n).
Proof.
  revert saldo. induction n as [| n IH]; intros saldo; [reflexivity |].
  change (saldo_apos rent_mensal aporte_mensal saldo (S (S n)))
    with (saldo_apos rent_mensal aporte_mensal
            (render rent_mensal aporte_mensal saldo) (S n)).
  now rewrite IH.
Qed.

Lemma saldos_length (saldo : num) (n : nat) :
  length (saldos rent_mensal aporte_mensal saldo n) = n.
Proof.
  revert saldo. induction n as [| n IH]; intros saldo; cbn; [| rewrite IH];
    reflexivity.
Qed.

(** Month [i] of the sequence that starts at [saldo]. *)
Lemma saldos_nth (saldo : num) (n i : nat) :
  (i <= n)%nat ->
  nth_error (saldo :: saldos rent_mensal aporte_mensal saldo n) i
  = Some (saldo_apos rent_mensal aporte_mensal saldo i).
Proof.
  revert saldo i. induction n as [| n IH]; intros saldo i Hi.
  - replace i with O by lia. reflexivity.
  - destruct i as [| i]; [reflexivity |].
    cbn [saldos nth_error saldo_apos]. apply IH. lia.
Qed.

(** The loop, run over any index list: it ends on the balance after as
    many months as there are indices and has appended each month's
    balance. *)
Lemma fold_passo_mes (indices : list Z) (saldo : num) (valores : list num) :
  fold_left (passo_mes rent_mensal aporte_mensal) indices (saldo, valores)
  = (saldo_apos rent_mensal aporte_mensal saldo (length indices),
     (valores ++ saldos rent_mensal aporte_mensal saldo (length indices))%list).
Proof.
  revert saldo valores.
  induction indices as [| i rest IH]; intros saldo valores; cbn [fold_left length].
  - now rewrite app_nil_r.
  - cbn [passo_mes]. rewrite IH. cbn [saldo_apos saldos].
    unfold render. now rewrite <- app_assoc.
Qed.
End Loop.

(** ** The projection *)

Section Projection.
Context {num : Type} `{Arith num}.
Local Open Scope num_scope.

(** [simular_valor_futuro] with its loop unrolled into [saldo_apos] and
    [saldos]. *)
Lemma simular_valor_futuro_unfold
    (tipo_rentabilidade : string) (taxa : num) (meses : Z)
    (aporte_inicial aporte_mensal cdi_anual ipca_anual : num)
    (isento_ir : bool) :
  let rent_mensal :=
    calcular_rentabilidade_mensal tipo_rentabilidade taxa cdi_anual ipca_anual in
  let n := Z.to_nat meses in
  let saldo := saldo_apos rent_mensal aporte_mensal aporte_inicial n in
  let valores := aporte_inicial :: saldos rent_mensal aporte_mensal aporte_inicial n in
  let rendimento_bruto :=
    saldo - (aporte_inicial + aporte_mensal * of_int meses) in
  let imposto := rendimento_bruto * obter_aliquota_ir (meses * 30) in
  simular_valor_futuro tipo_rentabilidade taxa meses aporte_inicial
                       aporte_mensal cdi_anual ipca_anual isento_ir
  = if isento_ir then (saldo, valores, rendimento_bruto, rent_mensal)
    else (saldo - imposto, valores, rendimento_bruto - imposto, rent_mensal).
Proof.
  cbv zeta. unfold simular_valor_futuro.
  rewrite fold_passo_mes, range_length.
  replace (Z.to_nat (meses + 1 - 1)) with (Z.to_nat meses) by lia.
  now destruct isento_ir.
Qed.

Lemma valores_de_simular
    (tipo_rentabilidade : string) (taxa : num) (meses : Z)
    (aporte_inicial aporte_mensal cdi_anual ipca_anual : num)
    (isento_ir : bool) :
  valores_de (simular_valor_futuro tipo_rentabilidade taxa meses aporte_inicial
                aporte_mensal cdi_anual ipca_anual isento_ir)
  = aporte_inicial
      :: saldos (calcular_rentabilidade_mensal tipo_rentabilidade taxa
                   cdi_anual ipca_anual)
                aporte_mensal aporte_inicial (Z.to_nat meses).
Proof.
  pose proof (simular_valor_futuro_unfold tipo_rentabilidade taxa meses
                aporte_inicial aporte_mensal cdi_anual ipca_anual isento_ir) as E.
  cbv zeta in E. rewrite E. now destruct isento_ir.
Qed.

Lemma rentabilidade_de_simular
    (tipo_rentabilidade : string) (taxa : num) (meses : Z)
    (aporte_inicial aporte_mensal cdi_anual ipca_anual : num)
    (isento_ir : bool) :
  rentabilidade_de (simular_valor_futuro tipo_rentabilidade taxa meses
                      aporte_inicial aporte_mensal cdi_anual ipca_anual isento_ir)
  = calcular_rentabilidade_mensal tipo_rentabilidade taxa cdi_anual ipca_anual.
Proof.
  pose proof (simular_valor_futuro_unfold tipo_rentabilidade taxa meses
                aporte_inicial aporte_mensal cdi_anual ipca_anual isento_ir) as E.
  cbv zeta in E. rewrite E. now destruct isento_ir.
Qed.

(** The last element of the trajectory is the balance the loop ends on. *)
Lemma saldos_last (rent_mensal aporte_mensal saldo : num) (n : nat) :
  getitem (saldo :: saldos rent_mensal aporte_mensal saldo n) (-1)
  = Some (saldo_apos rent_mensal aporte_mensal saldo n).
Proof.
  rewrite <- (saldos_nth rent_mensal aporte_mensal saldo n n) by lia.
  unfold getitem. cbn [length]. rewrite saldos_length.
  replace (-1 <? 0) with true by reflexivity.
  destruct (Z.leb_spec 0 (Z.of_nat (S n) + -1)) as [_ | Hlt]; [| lia].
  f_equal. lia.
Qed.

(** C1. For a horizon of at least one month, the trajectory [valores]
    returned by [simular_valor_futuro] starts at the initial deposit, has
    [meses + 1] elements, and each element from index 1 to [meses] is the
    previous one times (1 + the returned monthly rate) plus the monthly
    contribution. *)
Theorem trajectory_recurrence
    (tipo_rentabilidade : string) (taxa : num) (meses : Z)
    (aporte_inicial aporte_mensal cdi_anual ipca_anual : num)
    (isento_ir : bool) :
  1 <= meses ->
  let r := simular_valor_futuro tipo_rentabilidade taxa meses aporte_inicial
             aporte_mensal cdi_anual ipca_anual isento_ir in
  getitem (valores_de r) 0 = Some aporte_inicial
  /\ Z.of_nat (length (valores_de r)) = (meses + 1)%Z
  /\ forall i : Z, 1 <= i <= meses ->
       exists anterior atual : num,
         getitem (valores_de r) (i - 1) = Some anterior
         /\ getitem (valores_de r) i = Some atual
         /\ atual = anterior * (of_int 1 + rentabilidade_de r) + aporte_mensal.
Proof.
  intros Hmeses r. subst r.
  rewrite valores_de_simular, rentabilidade_de_simular.
  set (rent := calcular_rentabilidade_mensal _ _ _ _).
  split; [reflexivity | split].
  - cbn [length]. rewrite saldos_length. lia.
  - intros i Hi.
    exists (saldo_apos rent aporte_mensal aporte_inicial (Z.to_nat (i - 1))),
           (saldo_apos rent aporte_mensal aporte_inicial (Z.to_nat i)).
    rewrite !getitem_nonneg by lia.
    rewrite !saldos_nth by lia.
    repeat split.
    replace (Z.to_nat i) with (S (Z.to_nat (i - 1))) by lia.
    apply saldo_apos_succ.
Qed.

(** C2. With [last] the last element of the returned trajectory and
    [gross = last - (aporte_inicial + aporte_mensal * meses)]: a tax-exempt
    product's final balance is [last] itself; a taxed product's final
    balance is [last - gross * obter_aliquota_ir (meses * 30)], and the
    gain it reports is [gross] minus that same tax. *)
Theorem final_balance_and_tax
    (tipo_rentabilidade : string) (taxa : num) (meses : Z)
    (aporte_inicial aporte_mensal cdi_anual ipca_anual : num)
    (isento_ir : bool) :
  let r := simular_valor_futuro tipo_rentabilidade taxa meses aporte_inicial
             aporte_mensal cdi_anual ipca_anual isento_ir in
  exists last : num,
    getitem (valores_de r) (-1) = Some last
    /\ let gross := last - (aporte_inicial + aporte_mensal * of_int meses) in
       let tax := gross * obter_aliquota_ir (meses * 30) in
       saldo_de r = (if isento_ir then last else last - tax)
       /\ rendimento_de r = (if isento_ir then gross else gross - tax).
Proof.
  intros r. subst r. rewrite valores_de_simular.
  pose proof (simular_valor_futuro_unfold tipo_rentabilidade taxa meses
                aporte_inicial aporte_mensal cdi_anual ipca_anual isento_ir) as E.
  cbv zeta in E. rewrite E. clear E.
  eexists. split; [apply saldos_last |].
  now destruct isento_ir.
Qed.
End Projection.

(** ** The tax table and the rate resolver *)

Section Rates.
Context {num : Type} `{Arith num}.
Local Open Scope num_scope.

(** C6. The table at its boundaries: 180 days pay 0.225, 181 and 360 pay
    0.20, 361 and 720 pay 0.175, 721 pays 0.15; and the function is total:
    every day count, negative ones included, gets one of the four rates. *)
Theorem bracket_boundaries :
  obter_aliquota_ir 180 = lit 0.225
  /\ obter_aliquota_ir 181 = lit 0.20
  /\ obter_aliquota_ir 360 = lit 0.20
  /\ obter_aliquota_ir 361 = lit 0.175
  /\ obter_aliquota_ir 720 = lit 0.175
  /\ obter_aliquota_ir 721 = lit 0.15
  /\ forall dias : Z,
       In (obter_aliquota_ir dias) [lit 0.225; lit 0.20; lit 0.175; lit 0.15].
Proof.
  repeat (split; [reflexivity |]).
  intros dias. unfold obter_aliquota_ir.
  destruct (dias <=? 180)%Z; [now left |].
  destruct (dias <=? 360)%Z; [now right; left |].
  destruct (dias <=? 720)%Z; [now right; right; left |].
  now right; right; right; left.
Qed.

(** The table as the specification words it, by intervals. *)
Lemma obter_aliquota_ir_cases (dias : Z) :
  ((dias <= 180)%Z /\ obter_aliquota_ir dias = lit 0.225)
  \/ ((181 <= dias <= 360)%Z /\ obter_aliquota_ir dias = lit 0.20)
  \/ ((361 <= dias <= 720)%Z /\ obter_aliquota_ir dias = lit 0.175)
  \/ ((720 < dias)%Z /\ obter_aliquota_ir dias = lit 0.15).
Proof.
  unfold obter_aliquota_ir.
  destruct (Z.leb_spec dias 180); [left; now split |].
  destruct (Z.leb_spec dias 360); [right; left; split; [lia | reflexivity] |].
  destruct (Z.leb_spec dias 720);
    [right; right; left; split; [lia | reflexivity] |].
  right; right; right. now split.
Qed.

(** C7. For the kind ['Prefixada'] the monthly rate is
    [(1 + taxa) ** (1/12) - 1] whatever the scenario's CDI and IPCA are;
    for the kind ['IPCA +'] it is
    [((1 + ipca_anual) * (1 + taxa)) ** (1/12) - 1]. *)
Theorem fixed_and_ipca_rates (taxa cdi_anual ipca_anual : num) :
  calcular_rentabilidade_mensal "Prefixada" taxa cdi_anual ipca_anual
  = (of_int 1 + taxa) ** (of_int 1 / of_int 12) - of_int 1
  /\ (forall cdi_anual' ipca_anual' : num,
        calcular_rentabilidade_mensal "Prefixada" taxa cdi_anual' ipca_anual'
        = calcular_rentabilidade_mensal "Prefixada" taxa cdi_anual ipca_anual)
  /\ calcular_rentabilidade_mensal "IPCA +" taxa cdi_anual ipca_anual
     = ((of_int 1 + ipca_anual) * (of_int 1 + taxa)) ** (of_int 1 / of_int 12)
       - of_int 1.
Proof. repeat split. Qed.

(** C5, as the code has it. For every kind other than ['Prefixada'],
    ['CDI'] and ['IPCA +'], [calcular_rentabilidade_mensal] returns the
    integer 0: the final [else] branch is a fallback, not an error. *)
Theorem unknown_kind_returns_zero
    (tipo_rentabilidade : string) (taxa cdi_anual ipca_anual : num) :
  tipo_rentabilidade <> "Prefixada"%string ->
  tipo_rentabilidade <> "CDI"%string ->
  tipo_rentabilidade <> "IPCA +"%string ->
  calcular_rentabilidade_mensal tipo_rentabilidade taxa cdi_anual ipca_anual
  = of_int 0.
Proof.
  intros Hfixed Hcdi Hipca. unfold calcular_rentabilidade_mensal.
  apply String.eqb_neq in Hfixed, Hcdi, Hipca.
  now rewrite Hfixed, Hcdi, Hipca.
Qed.

(** C4, as the code has it. With a horizon of 0 months the loop body never
    runs and [simular_valor_futuro] returns: the trajectory is the
    single-element list [[aporte_inicial]], the gain is
    [aporte_inicial - (aporte_inicial + aporte_mensal * 0)], taxed at the
    rate of 0 days when the product is not exempt. *)
Theorem zero_horizon_returns
    (tipo_rentabilidade : string)
    (taxa aporte_inicial aporte_mensal cdi_anual ipca_anual : num)
    (isento_ir : bool) :
  let r := simular_valor_futuro tipo_rentabilidade taxa 0 aporte_inicial
             aporte_mensal cdi_anual ipca_anual isento_ir in
  let gross := aporte_inicial - (aporte_inicial + aporte_mensal * of_int 0) in
  valores_de r = [aporte_inicial]
  /\ saldo_de r
     = (if isento_ir then aporte_inicial
        else aporte_inicial - gross * lit 0.225)
  /\ rendimento_de r
     = (if isento_ir then gross else gross - gross * lit 0.225)
  /\ rentabilidade_de r
     = calcular_rentabilidade_mensal tipo_rentabilidade taxa cdi_anual ipca_anual.
Proof. now destruct isento_ir. Qed.
End Rates.

(** ** Properties over the exact reals *)

Section ExactReals.
Local Open Scope R_scope.

Lemma lit_values :
  lit 0.225 = 0.225 /\ lit 0.20 = 0.20 /\ lit 0.175 = 0.175 /\ lit 0.15 = 0.15.
Proof. cbn. unfold Q2R. cbn. repeat split; lra. Qed.

(** C3. For the kind ['CDI'] the monthly rate is
    [(1 + cdi_anual) ** (1/12) - 1 * taxa] as Python parses it, the product
    [1 * taxa] being subtracted from the power; that is, the monthly
    conversion of the whole CDI minus [taxa] itself. *)
Theorem cdi_rate_subtracts_taxa (taxa cdi_anual ipca_anual : R) :
  calcular_rentabilidade_mensal "CDI" taxa cdi_anual ipca_anual
  = pow (1 + cdi_anual) (1 / 12) - (1 * taxa)
  /\ calcular_rentabilidade_mensal "CDI" taxa cdi_anual ipca_anual
     = pow (1 + cdi_anual) (1 / 12) - taxa.
Proof. split; [reflexivity | cbn; lra]. Qed.

(** The rate of a ['Prefixada'] product with a non-negative annual rate is
    non-negative. *)
Lemma fixed_rate_nonneg (taxa cdi_anual ipca_anual : R) :
  0 <= taxa ->
  0 <= calcular_rentabilidade_mensal "Prefixada" taxa cdi_anual ipca_anual.
Proof.
  intros Htaxa. cbn.
  assert (Hpow : Rpower (1 + taxa) 0 <= Rpower (1 + taxa) (1 / 12))
    by (apply Rle_Rpower; lra).
  rewrite Rpower_O in Hpow by lra. lra.
Qed.

Lemma render_grows (rent_mensal aporte_mensal saldo : R) :
  0 <= rent_mensal -> 0 <= aporte_mensal -> 0 <= saldo ->
  saldo <= render rent_mensal aporte_mensal saldo.
Proof. intros Hr Hc Hs. unfold render. cbn. nra. Qed.

Lemma saldo_apos_nonneg (rent_mensal aporte_mensal saldo : R) (n : nat) :
  0 <= rent_mensal -> 0 <= aporte_mensal -> 0 <= saldo ->
  0 <= saldo_apos rent_mensal aporte_mensal saldo n.
Proof.
  intros Hr Hc. revert saldo.
  induction n as [| n IH]; intros saldo Hs; cbn [saldo_apos]; [assumption |].
  apply IH. pose proof (render_grows _ _ _ Hr Hc Hs). lra.
Qed.


(** C10. The tax rate is always one of 0.225, 0.20, 0.175 and 0.15, and a
    longer holding period never pays a higher rate. *)
Theorem bracket_non_increasing (d1 d2 : Z) :
  (d1 <= d2)%Z ->
  (forall dias : Z,
     obter_aliquota_ir dias = 0.225 \/ obter_aliquota_ir dias = 0.20
     \/ obter_aliquota_ir dias = 0.175 \/ obter_aliquota_ir dias = 0.15)
  /\ obter_aliquota_ir d2 <= obter_aliquota_ir d1.
Proof.
  intros Hle. destruct lit_values as (E1 & E2 & E3 & E4). split.
  - intros dias.
    destruct (obter_aliquota_ir_cases (num:=R) dias)
      as [[_ E] | [[_ E] | [[_ E] | [_ E]]]]; rewrite E; auto.
  - destruct (obter_aliquota_ir_cases (num:=R) d1)
      as [[H1 F1] | [[H1 F1] | [[H1 F1] | [H1 F1]]]];
    destruct (obter_aliquota_ir_cases (num:=R) d2)
      as [[H2 F2] | [[H2 F2] | [[H2 F2] | [H2 F2]]]];
    rewrite F1, F2, ?E1, ?E2, ?E3, ?E4; try lra; lia.
Qed.
End ExactReals.

(** ** Ranking *)

Section Ranking.
Local Open Scope R_scope.

Lemma gt_true (a b : R) : gt a b = true -> b < a.
Proof. cbn. destruct (Rgt_dec a b); [auto | discriminate]. Qed.

Lemma gt_false (a b : R) : gt a b = false -> a <= b.
Proof. cbn. destruct (Rgt_dec a b); [discriminate | lra]. Qed.

(** The scan returns the first item of maximal key: nothing has a greater
    key, and whatever comes before it has a strictly smaller one. *)
Lemma max_scan_first_maximum {A : Type} (key : A -> R)
    (items : list A) (best : A) :
  exists i : nat,
    nth_error (best :: items) i = Some (max_scan key best items)
    /\ (forall x, In x (best :: items) ->
          key x <= key (max_scan key best items))
    /\ (forall j x, (j < i)%nat -> nth_error (best :: items) j = Some x ->
          key x < key (max_scan key best items)).
Proof.
  revert best. induction items as [| item rest IH]; intros best.
  - exists O. cbn. repeat split.
    + intros x [<- | []]. lra.
    + intros j x Hj. lia.
  - cbn [max_scan]. destruct (gt (key item) (key best)) eqn:Hgt.
    + apply gt_true in Hgt.
      destruct (IH item) as (i & Hnth & Hmax & Hbefore).
      exists (S i). split; [exact Hnth | split].
      * intros x [<- | Hin]; [| now apply Hmax].
        specialize (Hmax item (or_introl eq_refl)). lra.
      * intros [| j] x Hj Hx.
        -- injection Hx as <-.
           specialize (Hmax item (or_introl eq_refl)). lra.
        -- apply (Hbefore j); [lia | exact Hx].
    + apply gt_false in Hgt.
      destruct (IH best) as (i & Hnth & Hmax & Hbefore).
      destruct i as [| i].
      * exists O. injection Hnth as Hbest. rewrite <- Hbest in *.
        split; [reflexivity | split].
        -- intros x [<- | [<- | Hin]]; [lra | exact Hgt |].
           apply Hmax. now right.
        -- intros j x Hj. lia.
      * exists (S (S i)). split; [exact Hnth | split].
        -- intros x [<- | [<- | Hin]].
           ++ apply Hmax. now left.
           ++ specialize (Hmax best (or_introl eq_refl)). lra.
           ++ apply Hmax. now right.
        -- intros [| [| j]] x Hj Hx.
           ++ apply (Hbefore O); [lia | exact Hx].
           ++ injection Hx as <-.
              specialize (Hbefore O best (Nat.lt_0_succ i) eq_refl). lra.
           ++ apply (Hbefore (S j)); [lia | exact Hx].
Qed.

(** The simulation loop maps [resultado_de] over the products. *)
Lemma resultados_map (ps : list produto) (meses : Z)
    (aporte_inicial aporte_mensal cdi_anual ipca_anual : R) :
  resultados ps meses aporte_inicial aporte_mensal cdi_anual ipca_anual
  = map (resultado_de meses aporte_inicial aporte_mensal cdi_anual ipca_anual)
        ps.
Proof.
  unfold resultados.
  set (f := resultado_de meses aporte_inicial aporte_mensal cdi_anual ipca_anual).
  enough (Hacc : forall acc,
             fold_left (fun acc p => (acc ++ [f p])%list) ps acc
             = (acc ++ map f ps)%list) by apply (Hacc []).
  induction ps as [| p ps IH]; intros acc; cbn [fold_left map].
  - now rewrite app_nil_r.
  - rewrite IH, <- app_assoc. reflexivity.
Qed.

(** The key [x[1]] of a product's tuple is its final balance. *)
Lemma resultado_de_key (meses : Z)
    (aporte_inicial aporte_mensal cdi_anual ipca_anual : R) (p : produto) :
  snd (fst (resultado_de meses aporte_inicial aporte_mensal cdi_anual
                         ipca_anual p))
  = saldo_final meses aporte_inicial aporte_mensal cdi_anual ipca_anual p.
Proof.
  unfold resultado_de, saldo_final.
  now destruct (simular_valor_futuro _ _ _ _ _ _ _ _) as [[[s v] g] m].
Qed.

(** Over the exact reals, which [>] always orders: for a non-empty product
    list, [melhor] is the tuple of a product whose final balance no other
    product exceeds, and every product listed before it has a strictly
    smaller final balance. *)
Theorem best_is_first_maximum (ps : list produto) (meses : Z)
    (aporte_inicial aporte_mensal cdi_anual ipca_anual : R) :
  ps <> [] ->
  let final :=
    saldo_final meses aporte_inicial aporte_mensal cdi_anual ipca_anual in
  exists (i : nat) (p : produto),
    nth_error ps i = Some p
    /\ melhor (resultados ps meses aporte_inicial aporte_mensal cdi_anual
                          ipca_anual)
       = Some (resultado_de meses aporte_inicial aporte_mensal cdi_anual
                            ipca_anual p)
    /\ (forall q, In q ps -> final q <= final p)
    /\ (forall j q, (j < i)%nat -> nth_error ps j = Some q ->
          final q < final p).
Proof.
  intros Hne final. rewrite resultados_map.
  set (f := resultado_de meses aporte_inicial aporte_mensal cdi_anual ipca_anual).
  destruct ps as [| p0 ps]; [contradiction |].
  cbn [map]. unfold melhor, py_max.
  destruct (max_scan_first_maximum (fun x => snd (fst x)) (map f ps) (f p0))
    as (i & Hnth & Hmax & Hbefore).
  change (f p0 :: map f ps) with (map f (p0 :: ps)) in Hnth, Hmax, Hbefore.
  set (m := max_scan _ _ _) in *.
  rewrite nth_error_map in Hnth.
  destruct (nth_error (p0 :: ps) i) as [p |] eqn:Hp; [| discriminate].
  injection Hnth as Hm.
  exists i, p. split; [exact Hp | split; [now rewrite Hm |]].
  assert (Hkey : forall q, snd (fst (f q)) = final q)
    by (intros q; apply resultado_de_key).
  rewrite <- Hm, Hkey in Hmax, Hbefore. split.
  - intros q Hq. rewrite <- Hkey. apply Hmax. now apply in_map.
  - intros j q Hj Hq. rewrite <- Hkey. apply (Hbefore j); [exact Hj |].
    now rewrite nth_error_map, Hq.
Qed.
(** Two products that differ in name only end on the same balance; the one
    listed first is the best. *)
Example tie_goes_to_first_listed (meses : Z)
    (aporte_inicial aporte_mensal cdi_anual ipca_anual : R) :
  melhor
    (resultados
       [ Produto "LCI A" "CDI" (lit 0.94) true;
         Produto "LCI B" "CDI" (lit 0.94) true ]
       meses aporte_inicial aporte_mensal cdi_anual ipca_anual)
  = Some (resultado_de meses aporte_inicial aporte_mensal cdi_anual ipca_anual
            (Produto "LCI A" "CDI" (lit 0.94) true)).
Proof.
  rewrite resultados_map. cbn [map]. unfold melhor, py_max. cbn [max_scan].
  rewrite !resultado_de_key. unfold saldo_final. cbn [tipo taxa isento_ir].
  destruct (gt _ _) eqn:Hgt; [| reflexivity].
  apply gt_true in Hgt. lra.
Qed.
End Ranking.

(** ** The script's default inputs, and inputs the form does not offer *)

Section Runs.
Local Open Scope R_scope.

(** The recurrence on the CDB of the default form: 1000 of deposit, 500 a
    month, 36 months. *)
Lemma trajectory_recurrence_default :
  (1 <= 36)%Z
  /\ (getitem
        (valores_de
           (simular_valor_futuro "Prefixada" (lit 0.1175) 36 1000 500
              (lit 0.1375) (lit 0.045) false)) 0 = Some 1000
      /\ Z.of_nat
           (length
              (valores_de
                 (simular_valor_futuro "Prefixada" (lit 0.1175) 36 1000 500
                    (lit 0.1375) (lit 0.045) false))) = (36 + 1)%Z
      /\ forall i : Z, (1 <= i <= 36)%Z ->
           exists anterior atual : R,
             getitem
               (valores_de
                  (simular_valor_futuro "Prefixada" (lit 0.1175) 36 1000 500
                     (lit 0.1375) (lit 0.045) false)) (i - 1) = Some anterior
             /\ getitem
                  (valores_de
                     (simular_valor_futuro "Prefixada" (lit 0.1175) 36 1000 500
                        (lit 0.1375) (lit 0.045) false)) i = Some atual
             /\ atual
                = anterior
                  * (1 + rentabilidade_de
                           (simular_valor_futuro "Prefixada" (lit 0.1175) 36
                              1000 500 (lit 0.1375) (lit 0.045) false))
                  + 500).
Proof.
  split; [lia |].
  apply (trajectory_recurrence (H:=real_arith) "Prefixada" (lit 0.1175) 36
           1000 500 (lit 0.1375) (lit 0.045) false).
  lia.
Defined.

(** A horizon of 0 months on the default form: the call returns, and the
    trajectory is the single element 1000. *)
Lemma zero_horizon_single_element :
  valores_de
    (simular_valor_futuro "Prefixada" (lit 0.1175) 0 1000 500
       (lit 0.1375) (lit 0.045) false)
  = [1000].
Proof. rewrite valores_de_simular. reflexivity. Qed.

(** A kind outside the three: the call returns the value 0. *)
Lemma selic_returns_zero :
  calcular_rentabilidade_mensal "Selic" (lit 0.1) (lit 0.1375) (lit 0.045) = 0.
Proof. reflexivity. Qed.

(** The fallback at the kind ['Selic']. *)
Lemma unknown_kind_returns_zero_selic :
  ("Selic"%string <> "Prefixada"%string
   /\ "Selic"%string <> "CDI"%string
   /\ "Selic"%string <> "IPCA +"%string)
  /\ calcular_rentabilidade_mensal "Selic" (lit 0.1) (lit 0.1375) (lit 0.045)
     = of_int 0.
Proof.
  split; [repeat split; discriminate |].
  apply (unknown_kind_returns_zero (H:=real_arith)); discriminate.
Defined.


(** Across the first boundary of the table: 181 days pay no more than 180. *)
Lemma bracket_non_increasing_180_181 :
  (180 <= 181)%Z
  /\ ((forall dias : Z,
         obter_aliquota_ir dias = 0.225 \/ obter_aliquota_ir dias = 0.20
         \/ obter_aliquota_ir dias = 0.175 \/ obter_aliquota_ir dias = 0.15)
      /\ obter_aliquota_ir 181 <= obter_aliquota_ir 180).
Proof.
  split; [lia |]. apply (bracket_non_increasing 180 181). lia.
Defined.

(** The ranking of the script's three products on the default form. *)
Lemma best_is_first_maximum_default :
  produtos (num:=R) <> []
  /\ exists (i : nat) (p : produto),
       nth_error produtos i = Some p
       /\ melhor (resultados produtos 36 1000 500 (lit 0.1375) (lit 0.045))
          = Some (resultado_de 36 1000 500 (lit 0.1375) (lit 0.045) p)
       /\ (forall q, In q produtos ->
             saldo_final 36 1000 500 (lit 0.1375) (lit 0.045) q
             <= saldo_final 36 1000 500 (lit 0.1375) (lit 0.045) p)
       /\ (forall j q, (j < i)%nat -> nth_error produtos j = Some q ->
             saldo_final 36 1000 500 (lit 0.1375) (lit 0.045) q
             < saldo_final 36 1000 500 (lit 0.1375) (lit 0.045) p).
Proof.
  split; [discriminate |].
  apply (best_is_first_maximum produtos 36 1000 500 (lit 0.1375) (lit 0.045)).
  discriminate.
Defined.
End Runs.

(** ** The simulation loop and its chart *)

Section Chart.
Context {num : Type} `{Arith num}.
Variable meses : Z.
Variables aporte_inicial aporte_mensal cdi_anual ipca_anual : num.

Let passo :=
  passo_produto meses aporte_inicial aporte_mensal cdi_anual ipca_anual.
Let entrada :=
  resultado_de meses aporte_inicial aporte_mensal cdi_anual ipca_anual.

Lemma resultados_as_map (ps : list produto) :
  resultados ps meses aporte_inicial aporte_mensal cdi_anual ipca_anual
  = map entrada ps.
Proof.
  unfold resultados. fold entrada.
  enough (Hacc : forall acc,
             fold_left (fun acc p => (acc ++ [entrada p])%list) ps acc
             = (acc ++ map entrada ps)%list) by apply (Hacc []).
  induction ps as [| p ps IH]; intros acc; cbn [fold_left map].
  - now rewrite app_nil_r.
  - now rewrite IH, <- app_assoc.
Qed.

Lemma enumerate_from {A : Type} (k : nat) (ps : list A) :
  combine (map (fun j => 0 + Z.of_nat j) (seq k (length ps))) ps
  = combine (map Z.of_nat (seq k (length ps))) ps.
Proof. reflexivity. Qed.

Lemma getitem_cores (k : nat) :
  getitem cores (Z.of_nat k)
  = if (k <? 3)%nat then Some (nth k cores ""%string) else None.
Proof.
  rewrite getitem_nonneg by lia. rewrite Nat2Z.id.
  destruct k as [| [| [| k]]]; try reflexivity.
  now destruct k.
Qed.

Lemma fold_passo_none (items : list (Z * produto)) :
  fold_left passo items None = None.
Proof. induction items as [| item items IH]; [reflexivity | exact IH]. Qed.

(** The loop from the product of index [k] on. *)
Lemma fold_passo_produto (ps : list produto) (k : nat)
    (res : list (string * num * num)) (fig : list scatter) :
  (k <= 3)%nat ->
  fold_left passo (combine (map Z.of_nat (seq k (length ps))) ps)
            (Some (res, fig))
  = if (k + length ps <=? 3)%nat then
      Some ((res ++ map entrada ps)%list,
            (fig ++ tracos meses aporte_inicial aporte_mensal cdi_anual
                           ipca_anual k ps)%list)
    else None.
Proof.
  revert k res fig. induction ps as [| p ps IH]; intros k res fig Hk3.
  - cbn. rewrite !app_nil_r.
    destruct (Nat.leb_spec (k + 0) 3) as [Hk | Hk]; [reflexivity | lia].
  - cbn [length seq map combine fold_left].
    unfold passo at 2. cbn [passo_produto].
    rewrite getitem_cores.
    destruct (simular_valor_futuro (tipo p) (taxa p) meses aporte_inicial
                aporte_mensal cdi_anual ipca_anual (isento_ir p))
      as [[[saldo_final valores] rendimento_bruto] rent] eqn:Esim.
    destruct (Nat.ltb_spec k 3) as [Hk | Hk].
    + fold passo. rewrite IH by lia.
      replace (S k + length ps)%nat with (k + S (length ps))%nat by lia.
      destruct (Nat.leb_spec (k + S (length ps)) 3) as [Hn | Hn];
        [| reflexivity].
      f_equal. f_equal.
      * rewrite <- app_assoc. cbn [app]. f_equal. f_equal.
        unfold entrada, resultado_de. now rewrite Esim.
      * rewrite <- app_assoc. cbn [app tracos]. f_equal. f_equal.
        unfold traco. now rewrite Esim.
    + rewrite fold_passo_none.
      destruct (Nat.leb_spec (k + S (length ps)) 3) as [Hn | Hn];
        [lia | reflexivity].
Qed.
Lemma simulacao_unfold (ps : list produto) :
  simulacao ps meses aporte_inicial aporte_mensal cdi_anual ipca_anual
  = if (length ps <=? 3)%nat then
      Some (resultados ps meses aporte_inicial aporte_mensal cdi_anual
                       ipca_anual,
            tracos meses aporte_inicial aporte_mensal cdi_anual ipca_anual
                   O ps)
    else None.
Proof.
  unfold simulacao, enumerate, range.
  rewrite Z.sub_0_r, Nat2Z.id, enumerate_from.
  fold passo. rewrite fold_passo_produto by lia.
  now rewrite resultados_as_map.
Qed.

Lemma tracos_length (k : nat) (ps : list produto) :
  length (tracos meses aporte_inicial aporte_mensal cdi_anual ipca_anual k ps)
  = length ps.
Proof.
  revert k. induction ps as [| p ps IH]; intros k; cbn; [| rewrite IH];
    reflexivity.
Qed.

Lemma tracos_nth (k i : nat) (ps : list produto) :
  nth_error
    (tracos meses aporte_inicial aporte_mensal cdi_anual ipca_anual k ps) i
  = option_map
      (traco meses aporte_inicial aporte_mensal cdi_anual ipca_anual (k + i))
      (nth_error ps i).
Proof.
  revert k i. induction ps as [| p ps IH]; intros k [| i]; cbn; try reflexivity.
  - now rewrite Nat.add_0_r.
  - rewrite IH. now replace (S k + i)%nat with (k + S i)%nat by lia.
Qed.

(** The script draws with three colours: the simulation loop ends in the
    [IndexError] of [cores[idx]] exactly when there are more than three
    products. *)
Lemma simulacao_index_error (ps : list produto) :
  simulacao ps meses aporte_inicial aporte_mensal cdi_anual ipca_anual = None
  <-> (3 < length ps)%nat.
Proof.
  rewrite simulacao_unfold.
  destruct (Nat.leb_spec (length ps) 3) as [Hle | Hgt]; split;
    try discriminate; try lia; reflexivity.
Qed.

(** With at most three products the loop completes: its [resultados] are
    those of the engine, and the figure has one trace per product, in order,
    named after the product, with the whole trajectory as [y], the months
    [0..meses] as [x], and the colour of the product's index. *)
Theorem simulacao_traces (ps : list produto) :
  (length ps <= 3)%nat ->
  exists fig : list scatter,
    simulacao ps meses aporte_inicial aporte_mensal cdi_anual ipca_anual
    = Some (resultados ps meses aporte_inicial aporte_mensal cdi_anual
                       ipca_anual, fig)
    /\ length fig = length ps
    /\ forall (i : nat) (p : produto), nth_error ps i = Some p ->
         exists t : scatter,
           nth_error fig i = Some t
           /\ name t = nome p
           /\ y t = valores_de
                      (simular_valor_futuro (tipo p) (taxa p) meses
                         aporte_inicial aporte_mensal cdi_anual ipca_anual
                         (isento_ir p))
           /\ x t = range 0 (meses + 1)
           /\ nth_error cores i = Some (line t).
Proof.
  intros Hlen. rewrite simulacao_unfold.
  destruct (Nat.leb_spec (length ps) 3) as [_ | Hgt]; [| lia].
  eexists. split; [reflexivity | split; [apply tracos_length |]].
  intros i p Hp. rewrite tracos_nth, Hp. cbn [option_map plus].
  eexists. split; [reflexivity |]. cbn [name y x line traco].
  repeat split.
  assert (Hi : (i < 3)%nat).
  { apply (Nat.lt_le_trans _ (length ps)); [| exact Hlen].
    apply nth_error_Some. now rewrite Hp. }
  destruct i as [| [| [| i]]]; try reflexivity. lia.
Qed.

(** The two axes of a trace have the same number of points exactly for a
    horizon that is not negative: [x] has [meses + 1] points then, [y] always
    has the initial deposit and one balance per month. *)
Theorem chart_axes_agree
    (tipo_rentabilidade : string) (taxa : num) (isento_ir : bool) :
  length (range 0 (meses + 1))
  = length
      (valores_de
         (simular_valor_futuro tipo_rentabilidade taxa meses aporte_inicial
            aporte_mensal cdi_anual ipca_anual isento_ir))
  <-> 0 <= meses.
Proof.
  rewrite valores_de_simular, range_length. cbn [length].
  rewrite saldos_length. lia.
Qed.

(** A horizon of zero or fewer months is not rejected: the loop body never
    runs, the trajectory is the initial deposit alone, and a taxed product
    pays the rate of the shortest holding period on
    [aporte_inicial - (aporte_inicial + aporte_mensal * meses)]. *)
Theorem non_positive_horizon
    (tipo_rentabilidade : string) (taxa : num) (isento_ir : bool) :
  meses <= 0 ->
  valores_de
    (simular_valor_futuro tipo_rentabilidade taxa meses aporte_inicial
       aporte_mensal cdi_anual ipca_anual isento_ir)
  = [aporte_inicial]
  /\ saldo_de
       (simular_valor_futuro tipo_rentabilidade taxa meses aporte_inicial
          aporte_mensal cdi_anual ipca_anual isento_ir)
     = (if isento_ir then aporte_inicial
        else sub aporte_inicial
               (mul (sub aporte_inicial
                       (add aporte_inicial (mul aporte_mensal (of_int meses))))
                    (lit 0.225))).
Proof.
  intros Hmeses.
  pose proof (simular_valor_futuro_unfold tipo_rentabilidade taxa meses
                aporte_inicial aporte_mensal cdi_anual ipca_anual isento_ir) as E.
  cbv zeta in E. rewrite E. clear E.
  replace (Z.to_nat meses) with O by lia. cbn [saldo_apos saldos].
  assert (Hrate : obter_aliquota_ir (num:=num) (meses * 30) = lit 0.225).
  { unfold obter_aliquota_ir.
    destruct (Z.leb_spec (meses * 30) 180) as [_ | Hgt]; [reflexivity | lia]. }
  rewrite Hrate. now destruct isento_ir.
Qed.

(** The tuple of a product depends on that product alone: the tuple of
    index [i] is the one of the product of index [i], so [resultados] keeps
    the order and the number of the products. *)
Theorem resultados_nth (ps : list produto) (i : nat) :
  nth_error
    (resultados ps meses aporte_inicial aporte_mensal cdi_anual ipca_anual) i
  = option_map
      (resultado_de meses aporte_inicial aporte_mensal cdi_anual ipca_anual)
      (nth_error ps i).
Proof. rewrite resultados_as_map. apply nth_error_map. Qed.
End Chart.

(** ** The best and the second best *)

Section Podium.
Context {num : Type} `{Arith num}.

Lemma max_scan_in {A : Type} (key : A -> num) (items : list A) (best : A) :
  In (max_scan key best items) (best :: items).
Proof.
  revert best. induction items as [| item rest IH]; intros best.
  - now left.
  - cbn [max_scan]. destruct (gt (key item) (key best)).
    + right. apply IH.
    + destruct (IH best) as [Hbest | Hrest]; [now left | now right; right].
Qed.

(** [max] raises its [ValueError] on an empty sequence only, and the best
    result is always the tuple of one of the products, whatever the
    comparison of the balances answers. *)
Theorem melhor_of_the_products (ps : list produto) (meses : Z)
    (aporte_inicial aporte_mensal cdi_anual ipca_anual : num) :
  (melhor (resultados ps meses aporte_inicial aporte_mensal cdi_anual
                      ipca_anual) = None <-> ps = [])
  /\ forall m : string * num * num,
       melhor (resultados ps meses aporte_inicial aporte_mensal cdi_anual
                          ipca_anual) = Some m ->
       exists p : produto,
         In p ps
         /\ m = resultado_de meses aporte_inicial aporte_mensal cdi_anual
                             ipca_anual p.
Proof.
  rewrite resultados_as_map. unfold melhor, py_max.
  destruct ps as [| p ps]; cbn [map].
  - split; [split; reflexivity | discriminate].
  - split; [split; discriminate |].
    intros m Hm. injection Hm as <-.
    pose proof (max_scan_in (fun r : string * num * num => snd (fst r))
                  (map (resultado_de meses aporte_inicial aporte_mensal
                          cdi_anual ipca_anual) ps)
                  (resultado_de meses aporte_inicial aporte_mensal cdi_anual
                     ipca_anual p)) as Hin.
    change (In (max_scan (fun r : string * num * num => snd (fst r))
                  (resultado_de meses aporte_inicial aporte_mensal cdi_anual
                     ipca_anual p)
                  (map (resultado_de meses aporte_inicial aporte_mensal
                          cdi_anual ipca_anual) ps))
               (map (resultado_de meses aporte_inicial aporte_mensal
                       cdi_anual ipca_anual) (p :: ps))) in Hin.
    apply in_map_iff in Hin. destruct Hin as (q & Hq & Hin).
    exists q. split; [exact Hin | now symmetry].
Qed.

Lemma insort_permutation {A : Type} (key : A -> num) (item : A)
    (run : list A) :
  Permutation (insort key item run) (item :: run).
Proof.
  induction run as [| first rest IH]; cbn [insort]; [reflexivity |].
  destruct (less (key item) (key first)); [reflexivity |].
  rewrite IH. apply perm_swap.
Qed.

Lemma fold_insort_permutation {A : Type} (key : A -> num)
    (items run : list A) :
  Permutation (fold_left (fun run item => insort key item run) items run)
              (items ++ run).
Proof.
  revert run. induction items as [| item items IH]; intros run;
    cbn [fold_left app]; [reflexivity |].
  rewrite IH, insort_permutation. symmetry. apply Permutation_middle.
Qed.

(** Whatever the comparison answers, sorting rearranges and nothing else. *)
Lemma py_sorted_permutation {A : Type} (key : A -> num) (items : list A) :
  Permutation (py_sorted key items) items.
Proof.
  unfold py_sorted. rewrite fold_insort_permutation. now rewrite app_nil_r.
Qed.

Lemma getitem_minus_2 {A : Type} (items : list A) :
  (getitem items (-2) = None <-> (length items < 2)%nat)
  /\ ((2 <= length items)%nat ->
      getitem items (-2) = nth_error items (length items - 2)).
Proof.
  unfold getitem. replace (-2 <? 0) with true by reflexivity.
  destruct (Z.leb_spec 0 (Z.of_nat (length items) + -2)) as [Hge | Hlt].
  - replace (Z.to_nat (Z.of_nat (length items) + -2))
      with (length items - 2)%nat by lia.
    split; [| reflexivity]. rewrite nth_error_None. lia.
  - split; [split; [lia | reflexivity] | lia].
Qed.

Lemma segundo_none_iff (rs : list (string * num * num)) :
  segundo rs = None <-> (length rs < 2)%nat.
Proof.
  unfold segundo.
  set (sorted := py_sorted (fun r : string * num * num => snd (fst r)) rs).
  assert (Hperm : Permutation sorted rs) by apply py_sorted_permutation.
  destruct (getitem_minus_2 sorted) as [Hnone _].
  now rewrite (Permutation_length Hperm) in Hnone.
Qed.

(** The index [-2] exists only in a list of two or more: [segundo] ends in
    an [IndexError] exactly when fewer than two results were simulated, and
    otherwise it is one of the results, whatever the comparison of the
    balances answers. *)
Theorem segundo_index_error (rs : list (string * num * num)) :
  (segundo rs = None <-> (length rs < 2)%nat)
  /\ forall s : string * num * num, segundo rs = Some s -> In s rs.
Proof.
  split; [apply segundo_none_iff |].
  unfold segundo.
  set (sorted := py_sorted (fun r : string * num * num => snd (fst r)) rs).
  assert (Hperm : Permutation sorted rs) by apply py_sorted_permutation.
  destruct (getitem_minus_2 sorted) as [Hnone Hnth].
  intros s Hs.
  destruct (Nat.le_gt_cases 2 (length sorted)) as [Hlen | Hlen].
  - rewrite (Hnth Hlen) in Hs. apply nth_error_In in Hs.
    now apply (Permutation_in _ Hperm).
  - apply Hnone in Hlen. congruence.
Qed.

(** Each way the script ends is a constructor; what is left is counting. *)
Ltac settle_outcome :=
  repeat split; intros;
  repeat match goal with
         | E : exists _, _ |- _ => destruct E
         | E : _ \/ _ |- _ => destruct E
         end;
  subst; cbn [length] in *;
  try congruence; try lia; try (eexists; reflexivity).

(** How the script ends, by the number of products: with none, in the
    [ValueError] of [max]; with one, in the [IndexError] of the index [-2];
    with more than three, in the [IndexError] of [cores[idx]]; with two or
    three it reaches the chart. *)
Theorem script_outcome (ps : list produto) (meses : Z)
    (aporte_inicial aporte_mensal cdi_anual ipca_anual : num) :
  (script ps meses aporte_inicial aporte_mensal cdi_anual ipca_anual
   = inl ValueError <-> ps = [])
  /\ (script ps meses aporte_inicial aporte_mensal cdi_anual ipca_anual
      = inl IndexError <-> length ps = 1%nat \/ (3 < length ps)%nat)
  /\ ((exists r,
         script ps meses aporte_inicial aporte_mensal cdi_anual ipca_anual
         = inr r)
      <-> (2 <= length ps <= 3)%nat).
Proof.
  unfold script. rewrite simulacao_unfold.
  destruct (Nat.leb_spec (length ps) 3) as [Hle | Hgt].
  - rewrite resultados_as_map.
    destruct ps as [| p [| q ps]].
    + cbn [map melhor py_max length]. settle_outcome.
    + cbn [map melhor py_max max_scan].
      replace (segundo _) with (@None (string * num * num)) by reflexivity.
      settle_outcome.
    + set (rs := map _ (p :: q :: ps)).
      assert (Hrs : (2 <= length rs)%nat)
        by (unfold rs; rewrite length_map; cbn [length]; lia).
      destruct (melhor rs) as [m |] eqn:Hm;
        [| unfold rs in Hm; cbn in Hm; discriminate].
      destruct (segundo rs) as [s |] eqn:Hs;
        [| apply segundo_none_iff in Hs; lia].
      settle_outcome.
  - settle_outcome.
Qed.
End Podium.

Section PodiumReals.
Local Open Scope R_scope.
Context {A : Type}.
Variable key : A -> R.

Let key_le (a b : A) : Prop := key a <= key b.

Lemma less_true (a b : R) : less a b = true -> a < b.
Proof. unfold less. apply gt_true. Qed.

Lemma less_false (a b : R) : less a b = false -> b <= a.
Proof. unfold less. apply gt_false. Qed.

Lemma insort_hd (a item : A) (run : list A) :
  key_le a item -> HdRel key_le a run -> HdRel key_le a (insort key item run).
Proof.
  intros Hitem Hrun. destruct run as [| first rest]; cbn [insort].
  - now constructor.
  - destruct (less (key item) (key first)); constructor;
      [exact Hitem | now inversion Hrun].
Qed.

Lemma insort_sorted (item : A) (run : list A) :
  Sorted key_le run -> Sorted key_le (insort key item run).
Proof.
  induction run as [| first rest IH]; intros Hrun; cbn [insort].
  - repeat constructor.
  - destruct (less (key item) (key first)) eqn:Hless.
    + apply less_true in Hless. constructor; [exact Hrun |].
      constructor. unfold key_le. lra.
    + apply less_false in Hless. inversion Hrun as [| ? ? Hrest Hhd]; subst.
      constructor; [now apply IH |]. now apply insort_hd.
Qed.

Lemma py_sorted_sorted (items : list A) :
  StronglySorted key_le (py_sorted key items).
Proof.
  apply Sorted_StronglySorted.
  - intros a b c. unfold key_le. lra.
  - unfold py_sorted.
    enough (Hrun : forall run, Sorted key_le run ->
               Sorted key_le
                 (fold_left (fun run item => insort key item run) items run))
      by (apply Hrun; constructor).
    induction items as [| item items IH]; intros run Hrun; cbn [fold_left];
      [exact Hrun |].
    apply IH. now apply insort_sorted.
Qed.

Lemma last_two (items : list A) :
  (2 <= length items)%nat ->
  exists (rest : list A) (a b : A), items = (rest ++ [a; b])%list.
Proof.
  induction items as [| c items IH]; cbn [length]; intros Hlen; [lia |].
  destruct items as [| d [| e items]].
  - cbn in Hlen. lia.
  - now exists [], c, d.
  - destruct IH as (rest & a & b & E); [cbn; lia |].
    exists (c :: rest), a, b. now rewrite E.
Qed.

Lemma sorted_last_two (rest : list A) (a b : A) :
  StronglySorted key_le (rest ++ [a; b]) ->
  (forall r, In r rest -> key r <= key a) /\ key a <= key b.
Proof.
  induction rest as [| c rest IH]; cbn [app]; intros Hs.
  - split; [intros r [] |].
    inversion Hs as [| ? ? _ Hall]; subst. now inversion Hall.
  - inversion Hs as [| ? ? Hrest Hall]; subst.
    destruct (IH Hrest) as [Hrest_le Hab]. split; [| exact Hab].
    intros r [<- | Hr]; [| now apply Hrest_le].
    rewrite Forall_forall in Hall. apply Hall.
    apply in_or_app. right. now left.
Qed.

Lemma getitem_minus_2_app (rest : list A) (a b : A) :
  getitem (rest ++ [a; b]) (-2) = Some a.
Proof.
  destruct (getitem_minus_2 (rest ++ [a; b])) as [_ Hnth].
  rewrite Hnth by (rewrite length_app; cbn; lia).
  rewrite length_app. cbn [length].
  replace (length rest + 2 - 2)%nat with (length rest) by lia.
  rewrite nth_error_app2 by lia. now rewrite Nat.sub_diag.
Qed.

(** What [sorted(items, key=key)[-2]] is: the items are, in some order, the
    lower ones, then it, then a top one. *)
Lemma second_of_sorted (items : list A) :
  (2 <= length items)%nat ->
  exists (s top : A) (rest : list A),
    getitem (py_sorted key items) (-2) = Some s
    /\ Permutation items (rest ++ [s; top])
    /\ (forall r, In r rest -> key r <= key s)
    /\ key s <= key top.
Proof.
  intros Hlen.
  pose proof (py_sorted_permutation key items) as Hperm.
  pose proof (py_sorted_sorted items) as Hsorted.
  destruct (last_two (py_sorted key items)) as (rest & s & top & E).
  { now rewrite (Permutation_length Hperm). }
  rewrite E in Hperm, Hsorted |- *.
  destruct (sorted_last_two _ _ _ Hsorted) as [Hrest Htop].
  exists s, top, rest. split; [apply getitem_minus_2_app |].
  split; [now symmetry | split; assumption].
Qed.
End PodiumReals.

Section RunnerUp.
Local Open Scope R_scope.

(** The second best, when there are at least two results: the results are,
    in some order, lower ones, then [segundo], then a top one; none of the
    lower ones has a greater final balance than [segundo], [segundo] has
    none greater than the top one, and the top one has the final balance of
    [melhor]. *)
Theorem segundo_is_runner_up (rs : list (string * R * R)) :
  (2 <= length rs)%nat ->
  exists (s top m : string * R * R) (rest : list (string * R * R)),
    segundo rs = Some s
    /\ melhor rs = Some m
    /\ Permutation rs (rest ++ [s; top])
    /\ (forall r, In r rest -> snd (fst r) <= snd (fst s))
    /\ snd (fst s) <= snd (fst top)
    /\ snd (fst top) = snd (fst m).
Proof.
  intros Hlen.
  destruct (second_of_sorted (fun r : string * R * R => snd (fst r)) rs Hlen)
    as (s & top & rest & Hs & Hperm & Hrest & Htop).
  destruct rs as [| first others]; [cbn in Hlen; lia |].
  destruct (max_scan_first_maximum (fun r : string * R * R => snd (fst r))
              others first) as (i & Hnth & Hmax & _).
  set (m := max_scan _ first others) in *.
  exists s, top, m, rest.
  split; [exact Hs | split; [reflexivity | split; [exact Hperm |]]].
  split; [exact Hrest | split; [exact Htop |]].
  apply Rle_antisym.
  - apply Hmax. apply (Permutation_in _ (Permutation_sym Hperm)).
    apply in_or_app. right. now right; left.
  - apply nth_error_In in Hnth. apply (Permutation_in _ Hperm) in Hnth.
    apply in_app_or in Hnth. destruct Hnth as [Hin | [<- | [<- | []]]].
    + specialize (Hrest _ Hin). lra.
    + exact Htop.
    + lra.
Qed.

(** When two results share the greatest final balance, [segundo] has that
    final balance too: the second best is then as good as the best. *)
Theorem segundo_of_a_tie (l1 l2 l3 : list (string * R * R))
    (a b : string * R * R) :
  (forall r, In r (l1 ++ a :: l2 ++ b :: l3) -> snd (fst r) <= snd (fst a)) ->
  snd (fst b) = snd (fst a) ->
  exists s m : string * R * R,
    segundo (l1 ++ a :: l2 ++ b :: l3) = Some s
    /\ melhor (l1 ++ a :: l2 ++ b :: l3) = Some m
    /\ snd (fst s) = snd (fst a)
    /\ snd (fst m) = snd (fst a).
Proof.
  intros Hmax Hb.
  set (rs := (l1 ++ a :: l2 ++ b :: l3)%list) in *.
  assert (Hlen : (2 <= length rs)%nat).
  { unfold rs. rewrite length_app. cbn [length]. rewrite length_app.
    cbn [length]. lia. }
  destruct (second_of_sorted (fun r : string * R * R => snd (fst r)) rs Hlen)
    as (s & top & rest & Hs & Hperm & Hrest & Htop).
  assert (Ha_in : In a rs).
  { unfold rs. apply in_or_app. right. now left. }
  assert (Hbest : exists m, melhor rs = Some m
                            /\ snd (fst m) = snd (fst a)).
  { destruct rs as [| first others] eqn:Ers; [cbn in Hlen; lia |].
    destruct (max_scan_first_maximum (fun r : string * R * R => snd (fst r))
                others first) as (i & Hnth & Hgreatest & _).
    exists (max_scan (fun r : string * R * R => snd (fst r)) first others).
    split; [reflexivity |].
    apply nth_error_In in Hnth.
    apply Rle_antisym; [now apply Hmax | now apply Hgreatest]. }
  destruct Hbest as (m & Hm & Em).
  assert (Hab : Permutation (a :: b :: l1 ++ l2 ++ l3) rs).
  { unfold rs. rewrite <- Permutation_middle. constructor.
    rewrite (app_assoc l1 l2 (b :: l3)), <- Permutation_middle.
    now rewrite app_assoc. }
  assert (Hends : Permutation (rest ++ [s; top]) (top :: s :: rest)).
  { rewrite (Permutation_app_comm rest [s; top]). cbn [app]. apply perm_swap. }
  assert (Hall : Permutation (a :: b :: l1 ++ l2 ++ l3) (top :: s :: rest))
    by (now rewrite Hab, Hperm).
  assert (Hin_s : In s rs).
  { apply (Permutation_in _ (Permutation_sym Hperm)).
    apply in_or_app. right. now left. }
  assert (Hlow : forall r, In r (s :: rest) -> snd (fst r) <= snd (fst s)).
  { intros r [<- | Hr]; [lra | now apply Hrest]. }
  assert (Hhigh : exists r, In r (s :: rest) /\ snd (fst r) = snd (fst a)).
  { assert (Ha : In a (top :: s :: rest))
      by (apply (Permutation_in _ Hall); now left).
    destruct Ha as [Etop | Ha]; [| now exists a].
    subst top. apply Permutation_cons_inv in Hall.
    exists b. split; [| exact Hb].
    apply (Permutation_in _ Hall). now left. }
  destruct Hhigh as (r & Hr & Er).
  exists s, m. split; [exact Hs | split; [exact Hm |]].
  pose proof (Hmax s Hin_s). pose proof (Hlow r Hr).
  split; [lra | exact Em].
Qed.
End RunnerUp.

(** ** Tax and balance over the exact reals *)

Section TaxReals.
Local Open Scope R_scope.

Lemma aliquota_bounds (dias : Z) :
  0.15 <= obter_aliquota_ir dias <= 0.225.
Proof.
  destruct lit_values as (E1 & E2 & E3 & E4).
  destruct (obter_aliquota_ir_cases (num:=R) dias)
    as [[_ E] | [[_ E] | [[_ E] | [_ E]]]]; rewrite E, ?E1, ?E2, ?E3, ?E4; lra.
Qed.

Lemma meses_as_real (meses : Z) :
  (0 <= meses)%Z -> INR (Z.to_nat meses) = IZR meses.
Proof. intros Hm. rewrite INR_IZR_INZ. f_equal. lia. Qed.

(** With nothing negative, the balance after [n] months is at least what
    was paid in. *)
Lemma saldo_apos_covers_principal
    (rent_mensal aporte_mensal saldo : R) (n : nat) :
  0 <= rent_mensal -> 0 <= aporte_mensal -> 0 <= saldo ->
  saldo + aporte_mensal * INR n
  <= saldo_apos rent_mensal aporte_mensal saldo n.
Proof.
  intros Hr Hc Hs. induction n as [| n IH].
  - cbn [saldo_apos INR]. lra.
  - rewrite saldo_apos_succ, S_INR.
    pose proof (saldo_apos_nonneg rent_mensal aporte_mensal saldo n Hr Hc Hs)
      as Hpos.
    pose proof (render_grows rent_mensal aporte_mensal _ Hr Hc Hpos) as Hgrow.
    unfold render in *. cbn in *. nra.
Qed.

(** In both branches, the returned balance minus the returned gain is what
    was paid in: [aporte_inicial + aporte_mensal * meses]. *)
Theorem balance_minus_gain_is_principal
    (tipo_rentabilidade : string) (taxa : R) (meses : Z)
    (aporte_inicial aporte_mensal cdi_anual ipca_anual : R)
    (isento_ir : bool) :
  saldo_de
    (simular_valor_futuro tipo_rentabilidade taxa meses aporte_inicial
       aporte_mensal cdi_anual ipca_anual isento_ir)
  - rendimento_de
      (simular_valor_futuro tipo_rentabilidade taxa meses aporte_inicial
         aporte_mensal cdi_anual ipca_anual isento_ir)
  = aporte_inicial + aporte_mensal * IZR meses.
Proof.
  pose proof (simular_valor_futuro_unfold tipo_rentabilidade taxa meses
                aporte_inicial aporte_mensal cdi_anual ipca_anual isento_ir) as E.
  cbv zeta in E. rewrite E. clear E.
  destruct isento_ir; cbn; lra.
Qed.

(** With a non-negative rate, deposit, contribution and horizon, the gain
    is not negative, and the tax takes part of the gain and no more: the
    taxed balance is at least what was paid in and at most the balance of
    the same product exempt from tax. *)
Theorem tax_takes_part_of_the_gain
    (tipo_rentabilidade : string) (taxa : R) (meses : Z)
    (aporte_inicial aporte_mensal cdi_anual ipca_anual : R) :
  0 <= calcular_rentabilidade_mensal tipo_rentabilidade taxa cdi_anual
         ipca_anual ->
  0 <= aporte_inicial ->
  0 <= aporte_mensal ->
  (0 <= meses)%Z ->
  aporte_inicial + aporte_mensal * IZR meses
  <= saldo_de
       (simular_valor_futuro tipo_rentabilidade taxa meses aporte_inicial
          aporte_mensal cdi_anual ipca_anual false)
  <= saldo_de
       (simular_valor_futuro tipo_rentabilidade taxa meses aporte_inicial
          aporte_mensal cdi_anual ipca_anual true)
  /\ 0 <= rendimento_de
            (simular_valor_futuro tipo_rentabilidade taxa meses aporte_inicial
               aporte_mensal cdi_anual ipca_anual false)
     <= rendimento_de
          (simular_valor_futuro tipo_rentabilidade taxa meses aporte_inicial
             aporte_mensal cdi_anual ipca_anual true).
Proof.
  intros Hr Hs Hc Hm.
  pose proof (simular_valor_futuro_unfold tipo_rentabilidade taxa meses
                aporte_inicial aporte_mensal cdi_anual ipca_anual false) as Ef.
  pose proof (simular_valor_futuro_unfold tipo_rentabilidade taxa meses
                aporte_inicial aporte_mensal cdi_anual ipca_anual true) as Et.
  cbv zeta in Ef, Et. rewrite Ef, Et. clear Ef Et.
  cbn [saldo_de rendimento_de].
  pose proof (saldo_apos_covers_principal _ _ _ (Z.to_nat meses) Hr Hc Hs)
    as Hcover.
  rewrite (meses_as_real meses Hm) in Hcover.
  pose proof (aliquota_bounds (meses * 30)) as Hrate.
  set (last := saldo_apos _ _ _ _) in *.
  set (aliquota := obter_aliquota_ir _) in *.
  cbn. nra.
Qed.

(** Over the exact reals, a loss is taxed too, at a negative amount: when
    the balance ends below what was paid in, the taxed product ends above
    the same product exempt from tax. *)
Theorem loss_raises_the_taxed_balance
    (tipo_rentabilidade : string) (taxa : R) (meses : Z)
    (aporte_inicial aporte_mensal cdi_anual ipca_anual : R) :
  saldo_de
    (simular_valor_futuro tipo_rentabilidade taxa meses aporte_inicial
       aporte_mensal cdi_anual ipca_anual true)
  < aporte_inicial + aporte_mensal * IZR meses ->
  saldo_de
    (simular_valor_futuro tipo_rentabilidade taxa meses aporte_inicial
       aporte_mensal cdi_anual ipca_anual true)
  < saldo_de
      (simular_valor_futuro tipo_rentabilidade taxa meses aporte_inicial
         aporte_mensal cdi_anual ipca_anual false).
Proof.
  pose proof (simular_valor_futuro_unfold tipo_rentabilidade taxa meses
                aporte_inicial aporte_mensal cdi_anual ipca_anual false) as Ef.
  pose proof (simular_valor_futuro_unfold tipo_rentabilidade taxa meses
                aporte_inicial aporte_mensal cdi_anual ipca_anual true) as Et.
  cbv zeta in Ef, Et. rewrite Ef, Et. clear Ef Et.
  cbn [saldo_de].
  pose proof (aliquota_bounds (meses * 30)) as Hrate.
  set (last := saldo_apos _ _ _ _) in *.
  set (aliquota := obter_aliquota_ir _) in *.
  cbn. intros Hloss. nra.
Qed.
End TaxReals.

(** ** Closed forms of the trajectory *)

Section ClosedForms.
Local Open Scope R_scope.

Lemma saldo_apos_geometric (rent_mensal aporte_mensal saldo : R) (n : nat) :
  rent_mensal <> 0 ->
  saldo_apos rent_mensal aporte_mensal saldo n
  = saldo * (1 + rent_mensal) ^ n
    + aporte_mensal * (((1 + rent_mensal) ^ n - 1) / rent_mensal).
Proof.
  intros Hr. induction n as [| n IH].
  - cbn [saldo_apos]. rewrite pow_O. field. exact Hr.
  - rewrite saldo_apos_succ, IH. unfold render. cbn [add mul of_int real_arith].
    rewrite <- tech_pow_Rmult. field. exact Hr.
Qed.

Lemma saldo_apos_linear (aporte_mensal saldo : R) (n : nat) :
  saldo_apos 0 aporte_mensal saldo n = saldo + aporte_mensal * INR n.
Proof.
  induction n as [| n IH].
  - cbn [saldo_apos INR]. lra.
  - rewrite saldo_apos_succ, IH, S_INR. unfold render. cbn. lra.
Qed.

Lemma saldo_apos_no_contribution (rent_mensal saldo : R) (n : nat) :
  saldo_apos rent_mensal 0 saldo n = saldo * (1 + rent_mensal) ^ n.
Proof.
  induction n as [| n IH].
  - cbn [saldo_apos]. rewrite pow_O. lra.
  - rewrite saldo_apos_succ, IH. unfold render. cbn [add mul of_int real_arith].
    rewrite <- tech_pow_Rmult. lra.
Qed.

(** The annuity formula: with a monthly rate [r] other than 0, the balance
    of month [i] is
    [aporte_inicial * (1 + r)^i + aporte_mensal * ((1 + r)^i - 1) / r]. *)
Theorem trajectory_closed_form
    (tipo_rentabilidade : string) (taxa : R) (meses : Z)
    (aporte_inicial aporte_mensal cdi_anual ipca_anual : R)
    (isento_ir : bool) (i : Z) :
  (0 <= i <= meses)%Z ->
  calcular_rentabilidade_mensal tipo_rentabilidade taxa cdi_anual ipca_anual
  <> 0 ->
  getitem
    (valores_de
       (simular_valor_futuro tipo_rentabilidade taxa meses aporte_inicial
          aporte_mensal cdi_anual ipca_anual isento_ir)) i
  = Some
      (aporte_inicial
       * (1 + calcular_rentabilidade_mensal tipo_rentabilidade taxa cdi_anual
                ipca_anual) ^ Z.to_nat i
       + aporte_mensal
         * (((1 + calcular_rentabilidade_mensal tipo_rentabilidade taxa
                    cdi_anual ipca_anual) ^ Z.to_nat i - 1)
            / calcular_rentabilidade_mensal tipo_rentabilidade taxa cdi_anual
                ipca_anual)).
Proof.
  intros Hi Hr. rewrite valores_de_simular.
  rewrite getitem_nonneg, saldos_nth by lia.
  now rewrite saldo_apos_geometric.
Qed.

(** Over the exact reals, with a monthly rate of 0 the projection only adds
    up what is paid in: month [i] holds [aporte_inicial + aporte_mensal * i],
    the gain is 0 and no tax is withheld, exempt or not. *)
Theorem zero_rate_accumulates
    (tipo_rentabilidade : string) (taxa : R) (meses : Z)
    (aporte_inicial aporte_mensal cdi_anual ipca_anual : R)
    (isento_ir : bool) :
  calcular_rentabilidade_mensal tipo_rentabilidade taxa cdi_anual ipca_anual
  = 0 ->
  (0 <= meses)%Z ->
  (forall i : Z, (0 <= i <= meses)%Z ->
     getitem
       (valores_de
          (simular_valor_futuro tipo_rentabilidade taxa meses aporte_inicial
             aporte_mensal cdi_anual ipca_anual isento_ir)) i
     = Some (aporte_inicial + aporte_mensal * IZR i))
  /\ saldo_de
       (simular_valor_futuro tipo_rentabilidade taxa meses aporte_inicial
          aporte_mensal cdi_anual ipca_anual isento_ir)
     = aporte_inicial + aporte_mensal * IZR meses
  /\ rendimento_de
       (simular_valor_futuro tipo_rentabilidade taxa meses aporte_inicial
          aporte_mensal cdi_anual ipca_anual isento_ir)
     = 0.
Proof.
  intros Hr Hm. split.
  - intros i Hi. rewrite valores_de_simular, Hr.
    rewrite getitem_nonneg, saldos_nth by lia.
    rewrite saldo_apos_linear, meses_as_real by lia. reflexivity.
  - pose proof (simular_valor_futuro_unfold tipo_rentabilidade taxa meses
                  aporte_inicial aporte_mensal cdi_anual ipca_anual isento_ir)
      as E.
    cbv zeta in E. rewrite E, Hr. clear E.
    rewrite saldo_apos_linear, meses_as_real by lia.
    destruct isento_ir; cbn; split; lra.
Qed.

Lemma twelfth_root_twelve_times (a : R) :
  0 < a -> Rpower a (1 / 12) ^ 12 = a.
Proof.
  intros Ha.
  rewrite <- Rpower_pow by apply exp_pos.
  rewrite Rpower_mult.
  replace (1 / 12 * INR 12) with 1 by (cbn [INR]; lra).
  now apply Rpower_1.
Qed.

(** Twelve months at the resolved monthly rate compound to the annual
    figure the rate was resolved from: [1 + taxa] for ['Prefixada'],
    [(1 + ipca_anual) * (1 + taxa)] for ['IPCA +'], and for ['CDI'] the
    whole [1 + cdi_anual] when [taxa] is 1. *)
Theorem monthly_rate_compounds_to_annual (taxa cdi_anual ipca_anual : R) :
  -1 < taxa -> -1 < cdi_anual -> -1 < ipca_anual ->
  (1 + calcular_rentabilidade_mensal "Prefixada" taxa cdi_anual ipca_anual)
    ^ 12 = 1 + taxa
  /\ (1 + calcular_rentabilidade_mensal "IPCA +" taxa cdi_anual ipca_anual)
       ^ 12 = (1 + ipca_anual) * (1 + taxa)
  /\ (1 + calcular_rentabilidade_mensal "CDI" 1 cdi_anual ipca_anual)
       ^ 12 = 1 + cdi_anual.
Proof.
  intros Htaxa Hcdi Hipca. cbn. repeat split.
  - replace (1 + (Rpower (1 + taxa) (1 / 12) - 1))
      with (Rpower (1 + taxa) (1 / 12)) by lra.
    apply twelfth_root_twelve_times. lra.
  - replace (1 + (Rpower ((1 + ipca_anual) * (1 + taxa)) (1 / 12) - 1))
      with (Rpower ((1 + ipca_anual) * (1 + taxa)) (1 / 12)) by lra.
    apply twelfth_root_twelve_times. nra.
  - replace (1 + (Rpower (1 + cdi_anual) (1 / 12) - 1 * 1))
      with (Rpower (1 + cdi_anual) (1 / 12)) by lra.
    apply twelfth_root_twelve_times. lra.
Qed.

(** Over the exact reals, a ['Prefixada'] product with no monthly
    contribution grows by the annual rate each year: after [12 * k] months
    the balance is [aporte_inicial * (1 + taxa)^k]. *)
Theorem fixed_rate_yearly_balance
    (taxa : R) (meses : Z) (aporte_inicial cdi_anual ipca_anual : R)
    (isento_ir : bool) (k : Z) :
  -1 < taxa ->
  (0 <= k)%Z ->
  (12 * k <= meses)%Z ->
  getitem
    (valores_de
       (simular_valor_futuro "Prefixada" taxa meses aporte_inicial 0
          cdi_anual ipca_anual isento_ir)) (12 * k)
  = Some (aporte_inicial * (1 + taxa) ^ Z.to_nat k).
Proof.
  intros Htaxa Hk Hmeses. rewrite valores_de_simular.
  rewrite getitem_nonneg, saldos_nth by lia.
  rewrite saldo_apos_no_contribution.
  replace (Z.to_nat (12 * k)) with (12 * Z.to_nat k)%nat by lia.
  rewrite pow_mult.
  change (calcular_rentabilidade_mensal "Prefixada" taxa cdi_anual ipca_anual)
    with (Rpower (1 + taxa) (1 / 12) - 1).
  replace (1 + (Rpower (1 + taxa) (1 / 12) - 1))
    with (Rpower (1 + taxa) (1 / 12)) by lra.
  rewrite twelfth_root_twelve_times by lra. reflexivity.
Qed.
End ClosedForms.

(** ** Comparing projections *)

Section Comparing.
Local Open Scope R_scope.

Lemma saldo_apos_monotone (r1 r2 c1 c2 s1 s2 : R) (n : nat) :
  -1 <= r1 <= r2 -> 0 <= c1 <= c2 -> 0 <= s1 <= s2 ->
  0 <= saldo_apos r1 c1 s1 n <= saldo_apos r2 c2 s2 n.
Proof.
  intros Hr Hc Hs. induction n as [| n IH].
  - exact Hs.
  - rewrite !saldo_apos_succ. unfold render. cbn [add mul of_int real_arith].
    set (a := saldo_apos r1 c1 s1 n) in *.
    set (b := saldo_apos r2 c2 s2 n) in *.
    nra.
Qed.

(** Over the exact reals, for one horizon and one tax status, more never
    gives less: a product whose monthly rate, initial deposit and monthly
    contribution are each at least those of another (none of them negative,
    the rate not below -100%) ends on at least the other's final balance. *)
Theorem more_never_gives_less
    (tipo1 tipo2 : string) (taxa1 taxa2 : R) (meses : Z)
    (inicial1 inicial2 mensal1 mensal2 cdi_anual ipca_anual : R)
    (isento_ir : bool) :
  -1 <= calcular_rentabilidade_mensal tipo1 taxa1 cdi_anual ipca_anual
     <= calcular_rentabilidade_mensal tipo2 taxa2 cdi_anual ipca_anual ->
  0 <= inicial1 <= inicial2 ->
  0 <= mensal1 <= mensal2 ->
  (0 <= meses)%Z ->
  saldo_de
    (simular_valor_futuro tipo1 taxa1 meses inicial1 mensal1 cdi_anual
       ipca_anual isento_ir)
  <= saldo_de
       (simular_valor_futuro tipo2 taxa2 meses inicial2 mensal2 cdi_anual
          ipca_anual isento_ir).
Proof.
  intros Hr Hs Hc Hm.
  pose proof (simular_valor_futuro_unfold tipo1 taxa1 meses inicial1 mensal1
                cdi_anual ipca_anual isento_ir) as E1.
  pose proof (simular_valor_futuro_unfold tipo2 taxa2 meses inicial2 mensal2
                cdi_anual ipca_anual isento_ir) as E2.
  cbv zeta in E1, E2. rewrite E1, E2. clear E1 E2.
  pose proof (saldo_apos_monotone _ _ _ _ _ _ (Z.to_nat meses) Hr Hc Hs)
    as Hlast.
  pose proof (aliquota_bounds (meses * 30)) as Hrate.
  assert (Hmeses : 0 <= IZR meses) by now apply IZR_le.
  set (last1 := saldo_apos _ mensal1 _ _) in *.
  set (last2 := saldo_apos _ mensal2 _ _) in *.
  set (aliquota := obter_aliquota_ir _) in *.
  destruct isento_ir; cbn; [lra |].
  assert (Hpaid : 0 <= (mensal2 - mensal1) * IZR meses)
    by (apply Rmult_le_pos; lra).
  assert (Hkept : 0 <= (last2 - last1) * (1 - aliquota))
    by (apply Rmult_le_pos; lra).
  assert (Hback : 0 <= (inicial2 - inicial1
                        + (mensal2 - mensal1) * IZR meses) * aliquota)
    by (apply Rmult_le_pos; lra).
  lra.
Qed.
End Comparing.

Section TaxByMonths.
Context {num : Type} `{Arith num}.

(** The tax rate of a projection by its horizon in months, days being
    [meses * 30]: 0.225 up to 6 months, 0.20 from 7 to 12, 0.175 from 13 to
    24, and 0.15 from 25 months on. *)
Theorem aliquota_by_months (meses : Z) :
  obter_aliquota_ir (meses * 30)
  = if meses <=? 6 then lit 0.225
    else if meses <=? 12 then lit 0.20
    else if meses <=? 24 then lit 0.175
    else lit 0.15.
Proof.
  unfold obter_aliquota_ir.
  destruct (Z.leb_spec (meses * 30) 180), (Z.leb_spec meses 6); try lia;
    [reflexivity |].
  destruct (Z.leb_spec (meses * 30) 360), (Z.leb_spec meses 12); try lia;
    [reflexivity |].
  destruct (Z.leb_spec (meses * 30) 720), (Z.leb_spec meses 24); try lia;
    reflexivity.
Qed.
End TaxByMonths.

(** ** The script's inputs, once more *)

Section MoreRuns.
Local Open Scope R_scope.

Lemma fixed_rate_pos (taxa cdi_anual ipca_anual : R) :
  0 < taxa ->
  0 < calcular_rentabilidade_mensal "Prefixada" taxa cdi_anual ipca_anual.
Proof.
  intros Htaxa. cbn.
  assert (Hpow : Rpower 1 (1 / 12) < Rpower (1 + taxa) (1 / 12))
    by (apply Rlt_Rpower_l; lra).
  assert (Hone : Rpower 1 (1 / 12) = 1).
  { unfold Rpower. now rewrite ln_1, Rmult_0_r, exp_0. }
  lra.
Qed.

(** 110% of a CDI of 13.75% a year: the source's formula gives a negative
    monthly rate. *)
Lemma cdi_rate_of_110_percent_neg (ipca_anual : R) :
  calcular_rentabilidade_mensal "CDI" 1.1 0.1375 ipca_anual < 0.
Proof.
  cbn.
  assert (Hroot : Rpower (1.1 ^ 12) (1 / 12) = 1.1).
  { rewrite <- Rpower_pow by lra. rewrite Rpower_mult.
    replace (INR 12 * (1 / 12)) with 1 by (cbn [INR]; lra).
    apply Rpower_1. lra. }
  assert (Hlt : Rpower (1 + 0.1375) (1 / 12) < Rpower (1.1 ^ 12) (1 / 12))
    by (apply Rlt_Rpower_l; lra).
  lra.
Qed.

(** The three products of the script fit the three colours. *)
Lemma simulacao_traces_default :
  (length (produtos (num:=R)) <= 3)%nat
  /\ exists fig : list scatter,
       simulacao produtos 36 1000 500 0.1375 0.045
       = Some (resultados produtos 36 1000 500 0.1375 0.045, fig)
       /\ length fig = length (produtos (num:=R))
       /\ forall (i : nat) (p : produto), nth_error produtos i = Some p ->
            exists t : scatter,
              nth_error fig i = Some t
              /\ name t = nome p
              /\ y t = valores_de
                         (simular_valor_futuro (tipo p) (taxa p) 36 1000 500
                            0.1375 0.045 (isento_ir p))
              /\ x t = range 0 (36 + 1)
              /\ nth_error cores i = Some (line t).
Proof.
  split; [cbn; lia |].
  apply (simulacao_traces 36 1000 500 0.1375 0.045 produtos). cbn. lia.
Defined.

(** A horizon of -3 months. *)
Lemma non_positive_horizon_minus_3 :
  (-3 <= 0)%Z
  /\ (valores_de
        (simular_valor_futuro "Prefixada" 0.1175 (-3) 1000 500 0.1375 0.045
           false)
      = [1000]
      /\ saldo_de
           (simular_valor_futuro "Prefixada" 0.1175 (-3) 1000 500 0.1375
              0.045 false)
         = 1000 - (1000 - (1000 + 500 * IZR (-3))) * lit 0.225).
Proof.
  split; [lia |].
  assert (Hmeses : (-3 <= 0)%Z) by lia.
  exact (non_positive_horizon (-3) 1000 500 0.1375 0.045 "Prefixada" 0.1175
           false Hmeses).
Defined.

(** The second best of the script's three products. *)
Lemma segundo_is_runner_up_default :
  (2 <= length (resultados produtos 36 1000%R 500%R 0.1375%R 0.045%R))%nat
  /\ exists (s top m : string * R * R) (rest : list (string * R * R)),
       segundo (resultados produtos 36 1000 500 0.1375 0.045) = Some s
       /\ melhor (resultados produtos 36 1000 500 0.1375 0.045) = Some m
       /\ Permutation (resultados produtos 36 1000 500 0.1375 0.045)
                      (rest ++ [s; top])
       /\ (forall r, In r rest -> snd (fst r) <= snd (fst s))
       /\ snd (fst s) <= snd (fst top)
       /\ snd (fst top) = snd (fst m).
Proof.
  assert (Hlen : (2 <= length (resultados produtos 36 1000%R 500%R 0.1375%R 0.045%R))%nat).
  { rewrite resultados_as_map, length_map. cbn. lia. }
  split; [exact Hlen |].
  apply (segundo_is_runner_up _ Hlen).
Defined.

(** Two results at 1500 and one at 1400. *)
Lemma segundo_of_a_tie_at_1500 :
  ((forall r : string * R * R,
      In r ([] ++ ("LCI A"%string, 1500, 500)
               :: [("CDB"%string, 1400, 400)]
               ++ ("LCI B"%string, 1500, 500) :: []) ->
      snd (fst r) <= snd (fst ("LCI A"%string, 1500, 500)))
   /\ snd (fst ("LCI B"%string, 1500, 500))
      = snd (fst ("LCI A"%string, 1500, 500)))
  /\ exists s m : string * R * R,
       segundo ([] ++ ("LCI A"%string, 1500, 500)
                  :: [("CDB"%string, 1400, 400)]
                  ++ ("LCI B"%string, 1500, 500) :: []) = Some s
       /\ melhor ([] ++ ("LCI A"%string, 1500, 500)
                    :: [("CDB"%string, 1400, 400)]
                    ++ ("LCI B"%string, 1500, 500) :: []) = Some m
       /\ snd (fst s) = snd (fst ("LCI A"%string, 1500, 500))
       /\ snd (fst m) = snd (fst ("LCI A"%string, 1500, 500)).
Proof.
  assert (Hmax : forall r : string * R * R,
             In r ([] ++ ("LCI A"%string, 1500, 500)
                      :: [("CDB"%string, 1400, 400)]
                      ++ ("LCI B"%string, 1500, 500) :: []) ->
             snd (fst r) <= snd (fst ("LCI A"%string, 1500, 500))).
  { intros r [<- | [<- | [<- | []]]]; cbn; lra. }
  split; [split; [exact Hmax | reflexivity] |].
  apply (segundo_of_a_tie [] [("CDB"%string, 1400, 400)] []
           ("LCI A"%string, 1500, 500) ("LCI B"%string, 1500, 500) Hmax).
  reflexivity.
Defined.
(** The CDB of the default form keeps part of its gain after tax. *)
Lemma tax_takes_part_of_the_gain_default :
  (0 <= calcular_rentabilidade_mensal "Prefixada" 0.1175 0.1375 0.045
   /\ 0 <= 1000 /\ 0 <= 500 /\ (0 <= 36)%Z)
  /\ (1000 + 500 * IZR 36
      <= saldo_de
           (simular_valor_futuro "Prefixada" 0.1175 36 1000 500 0.1375 0.045
              false)
      <= saldo_de
           (simular_valor_futuro "Prefixada" 0.1175 36 1000 500 0.1375 0.045
              true)
      /\ 0 <= rendimento_de
                (simular_valor_futuro "Prefixada" 0.1175 36 1000 500 0.1375
                   0.045 false)
         <= rendimento_de
              (simular_valor_futuro "Prefixada" 0.1175 36 1000 500 0.1375
                 0.045 true)).
Proof.
  assert (Hrate : 0 <= calcular_rentabilidade_mensal "Prefixada" 0.1175
                         0.1375 0.045) by (apply fixed_rate_nonneg; lra).
  assert (Hm : (0 <= 36)%Z) by lia.
  split; [repeat split; [exact Hrate | lra | lra | exact Hm] |].
  apply (tax_takes_part_of_the_gain "Prefixada" 0.1175 36 1000 500 0.1375
           0.045 Hrate); [lra | lra | exact Hm].
Defined.

(** One month of a taxed product at 110% of the CDI: the balance ends below
    the 1500 paid in, and the tax on that loss adds to it. *)
Lemma loss_raises_the_taxed_balance_cdi :
  saldo_de
    (simular_valor_futuro "CDI" 1.1 1 1000 500 0.1375 0.045 true)
  < 1000 + 500 * IZR 1
  /\ saldo_de
       (simular_valor_futuro "CDI" 1.1 1 1000 500 0.1375 0.045 true)
     < saldo_de
         (simular_valor_futuro "CDI" 1.1 1 1000 500 0.1375 0.045 false).
Proof.
  assert (Hloss : saldo_de
                    (simular_valor_futuro "CDI" 1.1 1 1000 500 0.1375 0.045
                       true)
                  < 1000 + 500 * IZR 1).
  { pose proof (cdi_rate_of_110_percent_neg 0.045) as Hneg.
    pose proof (simular_valor_futuro_unfold "CDI" 1.1 1 1000 500 0.1375
                  0.045 true) as E.
    cbv zeta in E. rewrite E. clear E.
    change (1000 * (1 + calcular_rentabilidade_mensal "CDI" 1.1 0.1375 0.045)
            + 500 < 1000 + 500 * 1).
    lra. }
  split; [exact Hloss |].
  exact (loss_raises_the_taxed_balance "CDI" 1.1 1 1000 500 0.1375 0.045
           Hloss).
Defined.

(** The last month of the CDB of the default form, by the annuity formula. *)
Lemma trajectory_closed_form_default :
  ((0 <= 36 <= 36)%Z
   /\ calcular_rentabilidade_mensal "Prefixada" 0.1175 0.1375 0.045 <> 0)
  /\ getitem
       (valores_de
          (simular_valor_futuro "Prefixada" 0.1175 36 1000 500 0.1375 0.045
             false)) 36
     = Some
         (1000
          * (1 + calcular_rentabilidade_mensal "Prefixada" 0.1175 0.1375
                   0.045) ^ Z.to_nat 36
          + 500
            * (((1 + calcular_rentabilidade_mensal "Prefixada" 0.1175 0.1375
                       0.045) ^ Z.to_nat 36 - 1)
               / calcular_rentabilidade_mensal "Prefixada" 0.1175 0.1375
                   0.045)).
Proof.
  assert (Hi : (0 <= 36 <= 36)%Z) by lia.
  assert (Hr : calcular_rentabilidade_mensal "Prefixada" 0.1175 0.1375 0.045
               <> 0).
  { pose proof (fixed_rate_pos 0.1175 0.1375 0.045) as Hpos. lra. }
  split; [split; [exact Hi | exact Hr] |].
  exact (trajectory_closed_form "Prefixada" 0.1175 36 1000 500 0.1375 0.045
           false 36 Hi Hr).
Defined.

(** A product of the unknown kind ['Selic'] on the default form: 36 months
    of contributions and no gain. *)
Lemma zero_rate_accumulates_selic :
  (calcular_rentabilidade_mensal "Selic" 0.1 0.1375 0.045 = 0 /\ (0 <= 36)%Z)
  /\ ((forall i : Z, (0 <= i <= 36)%Z ->
        getitem
          (valores_de
             (simular_valor_futuro "Selic" 0.1 36 1000 500 0.1375 0.045
                false)) i
        = Some (1000 + 500 * IZR i))
      /\ saldo_de
           (simular_valor_futuro "Selic" 0.1 36 1000 500 0.1375 0.045 false)
         = 1000 + 500 * IZR 36
      /\ rendimento_de
           (simular_valor_futuro "Selic" 0.1 36 1000 500 0.1375 0.045 false)
         = 0).
Proof.
  assert (Hr : calcular_rentabilidade_mensal "Selic" 0.1 0.1375 0.045 = 0)
    by reflexivity.
  assert (Hm : (0 <= 36)%Z) by lia.
  split; [split; [exact Hr | exact Hm] |].
  exact (zero_rate_accumulates "Selic" 0.1 36 1000 500 0.1375 0.045 false
           Hr Hm).
Defined.

(** The rates of the default form. *)
Lemma monthly_rate_compounds_to_annual_default :
  (-1 < 0.1175 /\ -1 < 0.1375 /\ -1 < 0.045)
  /\ ((1 + calcular_rentabilidade_mensal "Prefixada" 0.1175 0.1375 0.045)
        ^ 12 = 1 + 0.1175
      /\ (1 + calcular_rentabilidade_mensal "IPCA +" 0.1175 0.1375 0.045)
           ^ 12 = (1 + 0.045) * (1 + 0.1175)
      /\ (1 + calcular_rentabilidade_mensal "CDI" 1 0.1375 0.045)
           ^ 12 = 1 + 0.1375).
Proof.
  split; [repeat split; lra |].
  apply (monthly_rate_compounds_to_annual 0.1175 0.1375 0.045); lra.
Defined.

(** 1000 left for three years at 11.75% a year. *)
Lemma fixed_rate_yearly_balance_three_years :
  (-1 < 0.1175 /\ (0 <= 3)%Z /\ (12 * 3 <= 36)%Z)
  /\ getitem
       (valores_de
          (simular_valor_futuro "Prefixada" 0.1175 36 1000 0 0.1375 0.045
             false)) (12 * 3)
     = Some (1000 * (1 + 0.1175) ^ Z.to_nat 3).
Proof.
  split; [repeat split; [lra | lia | lia] |].
  apply (fixed_rate_yearly_balance 0.1175 36 1000 0.1375 0.045 false 3);
    [lra | lia | lia].
Defined.

(** The CDB of the default form with 1000 and with 2000 of deposit. *)
Lemma more_never_gives_less_deposit :
  (-1 <= calcular_rentabilidade_mensal "Prefixada" 0.1175 0.1375 0.045
      <= calcular_rentabilidade_mensal "Prefixada" 0.1175 0.1375 0.045
   /\ 0 <= 1000 <= 2000 /\ 0 <= 500 <= 500 /\ (0 <= 36)%Z)
  /\ saldo_de
       (simular_valor_futuro "Prefixada" 0.1175 36 1000 500 0.1375 0.045
          false)
     <= saldo_de
          (simular_valor_futuro "Prefixada" 0.1175 36 2000 500 0.1375 0.045
             false).
Proof.
  assert (Hr : -1 <= calcular_rentabilidade_mensal "Prefixada" 0.1175 0.1375
                       0.045
               <= calcular_rentabilidade_mensal "Prefixada" 0.1175 0.1375
                    0.045).
  { pose proof (fixed_rate_nonneg 0.1175 0.1375 0.045). lra. }
  assert (Hm : (0 <= 36)%Z) by lia.
  split; [repeat split; try lra; try exact Hm; apply Hr |].
  apply (more_never_gives_less "Prefixada" "Prefixada" 0.1175 0.1175 36
           1000 2000 500 500 0.1375 0.045 false Hr); [lra | lra | exact Hm].
Defined.
End MoreRuns.

Lemma saldo_final_unfold {num : Type} `{Arith num} (meses : Z)
    (aporte_inicial aporte_mensal cdi_anual ipca_anual : num) (p : produto) :
  saldo_final meses aporte_inicial aporte_mensal cdi_anual ipca_anual p
  = let rent_mensal :=
      calcular_rentabilidade_mensal (tipo p) (taxa p) cdi_anual ipca_anual in
    let saldo :=
      saldo_apos rent_mensal aporte_mensal aporte_inicial (Z.to_nat meses) in
    if isento_ir p then saldo
    else sub saldo
             (mul (sub saldo
                       (add aporte_inicial
                            (mul aporte_mensal (of_int meses))))
                  (obter_aliquota_ir (meses * 30))).
Proof.
  unfold saldo_final.
  pose proof (simular_valor_futuro_unfold (tipo p) (taxa p) meses
                aporte_inicial aporte_mensal cdi_anual ipca_anual
                (isento_ir p)) as E.
  cbv zeta in E. rewrite E. now destruct (isento_ir p).
Qed.

(** ** The best result on any arithmetic *)

Section BestOrdered.
Context {num : Type} `{Arith num}.

Lemma resultado_de_unfold (meses : Z)
    (aporte_inicial aporte_mensal cdi_anual ipca_anual : num) (p : produto) :
  resultado_de meses aporte_inicial aporte_mensal cdi_anual ipca_anual p
  = let rent_mensal :=
      calcular_rentabilidade_mensal (tipo p) (taxa p) cdi_anual ipca_anual in
    let saldo :=
      saldo_apos rent_mensal aporte_mensal aporte_inicial (Z.to_nat meses) in
    let rendimento_bruto :=
      sub saldo (add aporte_inicial (mul aporte_mensal (of_int meses))) in
    let imposto := mul rendimento_bruto (obter_aliquota_ir (meses * 30)) in
    if isento_ir p then (nome p, saldo, rendimento_bruto)
    else (nome p, sub saldo imposto, sub rendimento_bruto imposto).
Proof.
  unfold resultado_de.
  pose proof (simular_valor_futuro_unfold (tipo p) (taxa p) meses
                aporte_inicial aporte_mensal cdi_anual ipca_anual
                (isento_ir p)) as E.
  cbv zeta in E. rewrite E. now destruct (isento_ir p).
Qed.

Lemma resultado_de_saldo_final (meses : Z)
    (aporte_inicial aporte_mensal cdi_anual ipca_anual : num) (p : produto) :
  snd (fst (resultado_de meses aporte_inicial aporte_mensal cdi_anual
                         ipca_anual p))
  = saldo_final meses aporte_inicial aporte_mensal cdi_anual ipca_anual p.
Proof.
  unfold resultado_de, saldo_final.
  now destruct (simular_valor_futuro _ _ _ _ _ _ _ _) as [[[s v] g] m].
Qed.

(** On keys that [>] orders, the scan of [max] ends on an item that none
    exceeds and that exceeds every item before it. *)
Lemma max_scan_ordered {A : Type} (key : A -> num) (keys : list num)
    (items : list A) (best : A) :
  ordered_by_gt keys ->
  (forall a, In a (best :: items) -> In (key a) keys) ->
  exists i : nat,
    nth_error (best :: items) i = Some (max_scan key best items)
    /\ (forall a, In a (best :: items) ->
          gt (key a) (key (max_scan key best items)) = false)
    /\ (forall j a, (j < i)%nat -> nth_error (best :: items) j = Some a ->
          gt (key (max_scan key best items)) (key a) = true).
Proof.
  intros (Hirr & Htrans & Hstep). revert best.
  induction items as [| item rest IH]; intros best Hkeys.
  - exists O. cbn. repeat split.
    + intros a [<- | []]. apply Hirr, Hkeys. now left.
    + intros j a Hj. lia.
  - assert (Kbest : In (key best) keys) by (apply Hkeys; now left).
    assert (Kitem : In (key item) keys) by (apply Hkeys; now right; left).
    cbn [max_scan]. destruct (gt (key item) (key best)) eqn:Hgt.
    + destruct (IH item) as (i & Hnth & Hmax & Hbefore).
      { intros a Ha. apply Hkeys. now right. }
      set (m := max_scan key item rest) in *.
      assert (Km : In (key m) keys).
      { apply nth_error_In in Hnth. apply Hkeys. now right. }
      pose proof (Hmax item (or_introl eq_refl)) as Hitem.
      exists (S i). split; [exact Hnth | split].
      * intros a [<- | Ha]; [| now apply Hmax].
        destruct (gt (key best) (key m)) eqn:Hbm; [| reflexivity].
        rewrite (Htrans _ _ _ Kitem Kbest Km Hgt Hbm) in Hitem.
        discriminate.
      * intros [| j] a Hj Ha.
        -- injection Ha as <-.
           destruct (gt (key m) (key best)) eqn:Hmb; [reflexivity |].
           rewrite (Hstep _ _ _ Kitem Kbest Km Hgt Hmb) in Hitem.
           discriminate.
        -- apply (Hbefore j); [lia | exact Ha].
    + destruct (IH best) as (i & Hnth & Hmax & Hbefore).
      { intros a [<- | Ha]; apply Hkeys; [now left | now right; right]. }
      set (m := max_scan key best rest) in *.
      assert (Km : In (key m) keys).
      { apply nth_error_In in Hnth. destruct Hnth as [<- | Hin];
          [exact Kbest | apply Hkeys; now right; right]. }
      destruct i as [| i].
      * exists O. injection Hnth as Hbest. rewrite <- Hbest in *.
        split; [reflexivity | split].
        -- intros a [<- | [<- | Ha]];
             [now apply Hirr | exact Hgt | apply Hmax; now right].
        -- intros j a Hj. lia.
      * pose proof (Hbefore O best (Nat.lt_0_succ i) eq_refl) as Hmb.
        exists (S (S i)). split; [exact Hnth | split].
        -- intros a [<- | [<- | Ha]].
           ++ apply Hmax. now left.
           ++ destruct (gt (key item) (key m)) eqn:Him; [| reflexivity].
              rewrite (Htrans _ _ _ Kitem Km Kbest Him Hmb) in Hgt.
              discriminate.
           ++ apply Hmax. now right.
        -- intros [| [| j]] a Hj Ha.
           ++ apply (Hbefore O); [lia | exact Ha].
           ++ injection Ha as <-.
              exact (Hstep _ _ _ Km Kbest Kitem Hmb Hgt).
           ++ apply (Hbefore (S j)); [lia | exact Ha].
Qed.

(** C9, where [>] orders the balances. For a non-empty product list whose
    final balances [>] orders, as it orders floats of which none is NaN,
    [melhor] is the tuple of a product that no product exceeds in final
    balance, and that exceeds every product listed before it: among
    products of equal maximal balance the earliest is chosen. *)
Theorem melhor_is_first_maximum (ps : list produto) (meses : Z)
    (aporte_inicial aporte_mensal cdi_anual ipca_anual : num) :
  ps <> [] ->
  ordered_by_gt
    (map (saldo_final meses aporte_inicial aporte_mensal cdi_anual ipca_anual)
         ps) ->
  exists (i : nat) (p : produto),
    nth_error ps i = Some p
    /\ melhor (resultados ps meses aporte_inicial aporte_mensal cdi_anual
                          ipca_anual)
       = Some (resultado_de meses aporte_inicial aporte_mensal cdi_anual
                            ipca_anual p)
    /\ (forall q, In q ps ->
          gt (saldo_final meses aporte_inicial aporte_mensal cdi_anual
                          ipca_anual q)
             (saldo_final meses aporte_inicial aporte_mensal cdi_anual
                          ipca_anual p) = false)
    /\ (forall j q, (j < i)%nat -> nth_error ps j = Some q ->
          gt (saldo_final meses aporte_inicial aporte_mensal cdi_anual
                          ipca_anual p)
             (saldo_final meses aporte_inicial aporte_mensal cdi_anual
                          ipca_anual q) = true).
Proof.
  intros Hne Hord. rewrite resultados_as_map.
  set (f := resultado_de meses aporte_inicial aporte_mensal cdi_anual ipca_anual).
  set (final := saldo_final meses aporte_inicial aporte_mensal cdi_anual
                            ipca_anual) in *.
  assert (Hkey : forall q, snd (fst (f q)) = final q)
    by (intros q; apply resultado_de_saldo_final).
  destruct ps as [| p0 ps]; [contradiction |].
  cbn [map]. unfold melhor, py_max.
  destruct (max_scan_ordered (fun r : string * num * num => snd (fst r))
              (map final (p0 :: ps)) (map f ps) (f p0) Hord)
    as (i & Hnth & Hmax & Hbefore).
  { intros a Ha. change (f p0 :: map f ps) with (map f (p0 :: ps)) in Ha.
    apply in_map_iff in Ha. destruct Ha as (q & <- & Hq).
    rewrite Hkey. now apply in_map. }
  change (f p0 :: map f ps) with (map f (p0 :: ps)) in Hnth, Hmax, Hbefore.
  set (m := max_scan _ _ _) in *.
  rewrite nth_error_map in Hnth.
  destruct (nth_error (p0 :: ps) i) as [p |] eqn:Hp; [| discriminate].
  injection Hnth as Hm.
  exists i, p. split; [exact Hp | split; [now rewrite Hm |]].
  rewrite <- Hm, Hkey in Hmax, Hbefore. split.
  - intros q Hq. rewrite <- Hkey. apply Hmax. now apply in_map.
  - intros j q Hj Hq. rewrite <- (Hkey q). apply (Hbefore j); [exact Hj |].
    now rewrite nth_error_map, Hq.
Qed.
End BestOrdered.

(** ** The script on binary64 *)

Section Binary64Runs.
#[local] Set Warnings "-inexact-float".
#[local] Existing Instance binary64.

(** The final balances of the script's three products on the default form,
    as the script computes them. *)
Lemma default_form_balances :
  map (saldo_final (H:=binary64) 36 1000%float 500%float
         (float_of_literal 0.1375) (float_of_literal 0.045))
      (produtos (H:=binary64))
  = [22110.40683776679%float; 87538.21198586168%float;
     22268.389350745634%float].
Proof. vm_compute. reflexivity. Qed.

(** With 100000 months on the default form every balance has overflowed to
    infinity.  The CDB is taxed: its gain is infinite, so is the tax, and its
    final balance [inf - inf] is NaN.  No comparison with NaN holds, so [max]
    keeps the CDB, listed first, although the balance of the LCI, infinity,
    is not less than or equal to it. *)
Lemma melhor_is_nan_after_overflow :
  melhor (H:=binary64)
    (resultados (H:=binary64) produtos 100000 1000%float 500%float
       (float_of_literal 0.1375) (float_of_literal 0.045))
  = Some ("CDB - Prefixada"%string, nan, nan)
  /\ In (Produto "LCI - Pós CDI" "CDI" (float_of_literal 0.94) true)
        (produtos (H:=binary64))
  /\ saldo_final (H:=binary64) 100000 1000%float 500%float
       (float_of_literal 0.1375) (float_of_literal 0.045)
       (Produto "LCI - Pós CDI" "CDI" (float_of_literal 0.94) true)
     = infinity
  /\ PrimFloat.leb infinity nan = false
  /\ PrimFloat.ltb nan infinity = false.
Proof.
  split; [| split; [right; left; reflexivity | split; [| split; reflexivity]]].
  - rewrite resultados_as_map. cbn [map produtos].
    rewrite !resultado_de_unfold. vm_compute. reflexivity.
  - rewrite saldo_final_unfold. vm_compute. reflexivity.
Qed.
(** Three balances that are floats and not NaN: [>] orders them. *)
Lemma default_form_balances_ordered :
  ordered_by_gt
    (map (saldo_final 36 1000%float 500%float (float_of_literal 0.1375)
            (float_of_literal 0.045))
         produtos).
Proof.
  rewrite default_form_balances.
  repeat split; intros;
    repeat match goal with
           | Hin : In _ _ |- _ => cbn [In] in Hin
           | Hin : _ \/ _ |- _ => destruct Hin
           | Hin : False |- _ => destruct Hin
           end;
    subst;
    repeat match goal with
           | Hgt : gt _ _ = _ |- _ => vm_compute in Hgt
           end;
    vm_compute; congruence.
Qed.

(** The ranking of the script's three products on the default form, as the
    script computes it. *)
Lemma melhor_is_first_maximum_default :
  (produtos <> []
   /\ ordered_by_gt
        (map (saldo_final 36 1000%float 500%float (float_of_literal 0.1375)
                (float_of_literal 0.045))
             produtos))
  /\ exists (i : nat) (p : produto),
       nth_error produtos i = Some p
       /\ melhor (resultados produtos 36 1000%float 500%float
                             (float_of_literal 0.1375) (float_of_literal 0.045))
          = Some (resultado_de 36 1000%float 500%float
                               (float_of_literal 0.1375)
                               (float_of_literal 0.045) p)
       /\ (forall q, In q produtos ->
             gt (saldo_final 36 1000%float 500%float (float_of_literal 0.1375)
                             (float_of_literal 0.045) q)
                (saldo_final 36 1000%float 500%float (float_of_literal 0.1375)
                             (float_of_literal 0.045) p) = false)
       /\ (forall j q, (j < i)%nat -> nth_error produtos j = Some q ->
             gt (saldo_final 36 1000%float 500%float (float_of_literal 0.1375)
                             (float_of_literal 0.045) p)
                (saldo_final 36 1000%float 500%float (float_of_literal 0.1375)
                             (float_of_literal 0.045) q) = true).
Proof.
  assert (Hne : produtos (H:=binary64) <> []) by discriminate.
  split; [split; [exact Hne | exact default_form_balances_ordered] |].
  exact (melhor_is_first_maximum (H:=binary64) produtos 36 1000%float
           500%float (float_of_literal 0.1375) (float_of_literal 0.045) Hne
           default_form_balances_ordered).
Defined.
(** What the exact reals leave out: binary64 rounds.  A CDB of 1000 at
    11.75% a year and no contribution holds a little less than 1117.5 after
    twelve months; ten contributions of 0.1 at a rate of 0 add up to a little
    less than 1, a loss of about 1e-16 on which the taxed product gets back
    too little to change its balance. *)
Lemma binary64_rounds :
  getitem
    (valores_de
       (simular_valor_futuro "Prefixada" (float_of_literal 0.1175) 36
          1000%float 0%float (float_of_literal 0.1375)
          (float_of_literal 0.045) false)) 12
  = Some 1117.4999999999995%float
  /\ saldo_de
       (simular_valor_futuro "Selic" 0%float 10 0%float
          (float_of_literal 0.1) (float_of_literal 0.1375)
          (float_of_literal 0.045) true)
     = 0.9999999999999999%float
  /\ saldo_de
       (simular_valor_futuro "Selic" 0%float 10 0%float
          (float_of_literal 0.1) (float_of_literal 0.1375)
          (float_of_literal 0.045) false)
     = 0.9999999999999999%float.
Proof. repeat split; vm_compute; reflexivity. Qed.
End Binary64Runs.

(** ** What [>] orders *)

Section Orders.

(** The comparison of the specification of binary64, without NaN. *)
Lemma SFltb_order (a b c : SpecFloat.spec_float) :
  a <> SpecFloat.S754_nan -> b <> SpecFloat.S754_nan ->
  c <> SpecFloat.S754_nan ->
  SpecFloat.SFltb a a = false
  /\ (SpecFloat.SFltb b a = true -> SpecFloat.SFltb c b = true ->
      SpecFloat.SFltb c a = true)
  /\ (SpecFloat.SFltb b a = true -> SpecFloat.SFltb b c = false ->
      SpecFloat.SFltb c a = true).
Proof.
  intros Ha Hb Hc. unfold SpecFloat.SFltb.
  destruct a as [sa | sa | | sa ma ea]; try congruence;
  destruct b as [sb | sb | | sb mb eb]; try congruence;
  destruct c as [sc | sc | | sc mc ec]; try congruence;
  cbn [SpecFloat.SFcompare];
  repeat match goal with s : bool |- _ => destruct s end;
  cbn; repeat split; try congruence; try reflexivity;
  rewrite ?Pos.compare_cont_spec; cbn [Pos.switch_Eq];
  repeat match goal with
    | |- context [Z.compare ?u ?v] => destruct (Z.compare_spec u v)
    | |- context [Pos.compare ?u ?v] => destruct (Pos.compare_spec u v)
    end; cbn; try congruence; try lia.
Qed.

Lemma not_nan_spec (k : float) :
  PrimFloat.is_nan k = false ->
  FloatOps.Prim2SF k <> SpecFloat.S754_nan.
Proof.
  unfold PrimFloat.is_nan. rewrite FloatAxioms.eqb_spec. intros Hk E.
  rewrite E in Hk. discriminate.
Qed.

(** On binary64, [>] orders every list of balances of which none is NaN. *)
Lemma binary64_ordered_by_gt (keys : list float) :
  (forall k, In k keys -> PrimFloat.is_nan k = false) ->
  ordered_by_gt (H:=binary64) keys.
Proof.
  intros Hkeys. unfold ordered_by_gt. cbn [gt binary64].
  repeat split.
  - intros a Ha. rewrite FloatAxioms.ltb_spec.
    pose proof (not_nan_spec a (Hkeys a Ha)) as Na.
    now destruct (SFltb_order _ _ _ Na Na Na) as (Hirr & _ & _).
  - intros a b c Ha Hb Hc. rewrite !FloatAxioms.ltb_spec.
    pose proof (not_nan_spec a (Hkeys a Ha)) as Na.
    pose proof (not_nan_spec b (Hkeys b Hb)) as Nb.
    pose proof (not_nan_spec c (Hkeys c Hc)) as Nc.
    destruct (SFltb_order _ _ _ Na Nb Nc) as (_ & Htrans & _).
    exact Htrans.
  - intros a b c Ha Hb Hc. rewrite !FloatAxioms.ltb_spec.
    pose proof (not_nan_spec a (Hkeys a Ha)) as Na.
    pose proof (not_nan_spec b (Hkeys b Hb)) as Nb.
    pose proof (not_nan_spec c (Hkeys c Hc)) as Nc.
    destruct (SFltb_order _ _ _ Na Nb Nc) as (_ & _ & Hstep).
    exact Hstep.
Qed.

(** On the exact reals, [>] orders every list. *)
Lemma reals_ordered_by_gt (keys : list R) : ordered_by_gt keys.
Proof.
  repeat split.
  - intros a _. cbn. destruct (Rgt_dec a a); [lra | reflexivity].
  - intros a b c _ _ _ Hab Hbc. apply gt_true in Hab, Hbc.
    cbn. destruct (Rgt_dec a c); [reflexivity | lra].
  - intros a b c _ _ _ Hab Hcb. apply gt_true in Hab. apply gt_false in Hcb.
    cbn. destruct (Rgt_dec a c); [reflexivity | lra].
Qed.
End Orders.
